(** * sw_utils.consensus: the fallback consensus client

    A shallow embedding of [src/sw_utils/consensus.py]: the validator
    status enumeration with its three groups, and [ExtendedAsyncBeacon],
    whose two operations sweep the configured base urls in order.

    The coroutine bodies run on one task and suspend only at network
    calls, so each operation is a sequential program over the outside
    world.  It is written in a small monad that threads the world,
    carries a raised exception, and collects, in order, the log records
    emitted and the requests issued. *)

From Stdlib Require Import List String Ascii ZArith Bool Lia.
From Stdlib Require Import DecimalString DecimalZ.
Import ListNotations.

Local Open Scope string_scope.
Local Open Scope list_scope.

(** ** Validator statuses *)

Inductive ValidatorStatus : Type :=
| PENDING_INITIALIZED
| PENDING_QUEUED
| ACTIVE_ONGOING
| ACTIVE_EXITING
| ACTIVE_SLASHED
| EXITED_UNSLASHED
| EXITED_SLASHED
| WITHDRAWAL_POSSIBLE
| WITHDRAWAL_DONE.

(** The [value] of each enum member. *)
Definition status_value (s : ValidatorStatus) : string :=
  match s with
  | PENDING_INITIALIZED => "pending_initialized"
  | PENDING_QUEUED => "pending_queued"
  | ACTIVE_ONGOING => "active_ongoing"
  | ACTIVE_EXITING => "active_exiting"
  | ACTIVE_SLASHED => "active_slashed"
  | EXITED_UNSLASHED => "exited_unslashed"
  | EXITED_SLASHED => "exited_slashed"
  | WITHDRAWAL_POSSIBLE => "withdrawal_possible"
  | WITHDRAWAL_DONE => "withdrawal_done"
  end.

(** Every member of the enumeration, in declaration order. *)
Definition all_statuses : list ValidatorStatus :=
  [PENDING_INITIALIZED; PENDING_QUEUED; ACTIVE_ONGOING; ACTIVE_EXITING;
   ACTIVE_SLASHED; EXITED_UNSLASHED; EXITED_SLASHED; WITHDRAWAL_POSSIBLE;
   WITHDRAWAL_DONE].

Definition PENDING_STATUSES : list ValidatorStatus :=
  [PENDING_INITIALIZED; PENDING_QUEUED].

Definition ACTIVE_STATUSES : list ValidatorStatus :=
  [ACTIVE_ONGOING; ACTIVE_EXITING; ACTIVE_SLASHED].

Definition EXITED_STATUSES : list ValidatorStatus :=
  [EXITED_UNSLASHED; EXITED_SLASHED; WITHDRAWAL_POSSIBLE; WITHDRAWAL_DONE].

Definition status_eq_dec (a b : ValidatorStatus) : {a = b} + {a <> b}.
Proof. decide equality. Defined.

(** Python's [status in GROUP] on a list of enum members. *)
Definition status_in (s : ValidatorStatus) (group : list ValidatorStatus) : bool :=
  if in_dec status_eq_dec s group then true else false.

(** How many of the three groups hold [s]. *)
Definition group_count (s : ValidatorStatus) : nat :=
  (if status_in s PENDING_STATUSES then 1 else 0)
  + (if status_in s ACTIVE_STATUSES then 1 else 0)
  + (if status_in s EXITED_STATUSES then 1 else 0).

(** ** Values exchanged with the beacon node *)

(** A decoded JSON document, which is also the shape of the dict that
    is handed to [json=] on a POST.  Dicts keep insertion order. *)
#[local] Set Warnings "-register-all".
Inductive Json : Type :=
| JNull
| JBool (b : bool)
| JNum (z : Z)
| JStr (s : string)
| JArr (items : list Json)
| JObj (fields : list (string * Json)).

(** [str(n)] on a Python int: the decimal numeral with a leading minus
    sign for negative numbers, no leading zeros. *)
Definition str_int (n : Z) : string := NilZero.string_of_int (Z.to_int n).

(** [int(s)] restricted to what [str] prints; used to read numerals back. *)
Definition int_of_str (s : string) : option Z :=
  option_map Z.of_int (NilZero.int_of_string s).

(** [sep.join(parts)]. *)
Fixpoint join (sep : string) (parts : list string) : string :=
  match parts with
  | [] => ""
  | [p] => p
  | p :: rest => p ++ sep ++ join sep rest
  end.

(** [GET_VALIDATORS = '/eth/v1/beacon/states/{0}/validators{1}'], as the
    function [GET_VALIDATORS.format] computes. *)
Definition GET_VALIDATORS (a0 a1 : string) : string :=
  "/eth/v1/beacon/states/" ++ a0 ++ "/validators" ++ a1.

(** [web3.beacon.api_endpoints.GET_VOLUNTARY_EXITS]. *)
Definition GET_VOLUNTARY_EXITS : string := "/eth/v1/beacon/pool/voluntary_exits".

(** ** Observable events *)

Inductive Level : Type := DEBUG | ERROR.

(** One call on [logger]: the level, the format string and its arguments. *)
Record LogRecord : Type := mkLog {
  levelname : Level;
  msg : string;
  args : list string
}.

Inductive Method : Type := GET | POST.

(** Which connection carries a request: the session handed to the
    constructor, a [ClientSession()] opened for this attempt only, or
    whatever web3's request helper uses. *)
Inductive Channel (Session : Type) : Type :=
| SharedSession (s : Session)
| FreshSession
| Web3Helper.
Arguments SharedSession {Session} s.
Arguments FreshSession {Session}.
Arguments Web3Helper {Session}.

(** One HTTP request as the client issues it.  [req_timeout] is the
    timeout argument of the call, [None] when the call passes none. *)
Record Request (Session : Type) : Type := mkRequest {
  method : Method;
  uri : string;
  req_timeout : option Z;
  req_json : option Json;
  channel : Channel Session
}.
Arguments mkRequest {Session}.
Arguments method {Session}.
Arguments uri {Session}.
Arguments req_timeout {Session}.
Arguments req_json {Session}.
Arguments channel {Session}.

(** What an operation does that can be seen from outside: a record
    handed to the logger, or a request handed to the HTTP collaborator
    (whatever comes of it). *)
Inductive Event (Session : Type) : Type :=
| Logged (r : LogRecord)
| Issued (r : Request Session).
Arguments Logged {Session} r.
Arguments Issued {Session} r.

(** ** The collaborators of the client

    Everything the module imports and calls: the exception classes, the
    [AiohttpRecoveredErrors] tuple and [urljoin] of the sibling modules,
    aiohttp's sessions and responses, web3's GET helper. *)
Record Transport : Type := mkTransport {
  World : Type;
  Error : Type;
  Session : Type;
  Response : Type;
  (** [isinstance(error, AiohttpRecoveredErrors)] *)
  recovered : Error -> bool;
  (** [repr(error)] *)
  repr : Error -> string;
  (** [sw_utils.common.urljoin(base, path)] *)
  urljoin : string -> string -> string;
  (** entering [session.get(...)] or [session.post(...)] *)
  perform : Request Session -> World -> (Error + Response) * World;
  (** [response.raise_for_status()]: the exception, if it raises *)
  raise_for_status : Response -> option Error;
  (** [await response.json()] *)
  response_json : Response -> World -> (Error + Json) * World;
  (** [await async_json_make_get_request(uri, timeout=...)] *)
  async_json_make_get_request : Request Session -> World -> (Error + Json) * World
}.

(** ** The effect monad *)

Section Client.

Context (T : Transport).

Definition Ev : Type := Event (Session T).
Definition Req : Type := Request (Session T).

(** A computation runs from a world to an outcome (the exception raised
    or the value returned), the world it leaves, and what it did. *)
Definition M (A : Type) : Type :=
  World T -> (Error T + A) * World T * list Ev.

Definition outcome {A} (r : (Error T + A) * World T * list Ev) : Error T + A :=
  fst (fst r).
Definition final_world {A} (r : (Error T + A) * World T * list Ev) : World T :=
  snd (fst r).
Definition trace {A} (r : (Error T + A) * World T * list Ev) : list Ev :=
  snd r.

Definition ret {A} (a : A) : M A := fun w => (inr a, w, []).

Definition raise {A} (e : Error T) : M A := fun w => (inl e, w, []).

Definition bind {A B} (m : M A) (k : A -> M B) : M B :=
  fun w =>
    let '(r, w1, t1) := m w in
    match r with
    | inl e => (inl e, w1, t1)
    | inr a => let '(r2, w2, t2) := k a w1 in (r2, w2, t1 ++ t2)
    end.

(** [try: body / except AiohttpRecoveredErrors ...] is written with
    [try_except]; the handler receives every exception and re-raises
    the ones the clause does not match. *)
Definition try_except {A} (body : M A) (handler : Error T -> M A) : M A :=
  fun w =>
    let '(r, w1, t1) := body w in
    match r with
    | inl e => let '(r2, w2, t2) := handler e w1 in (r2, w2, t1 ++ t2)
    | inr a => (inr a, w1, t1)
    end.

Definition emit (e : Ev) : M unit := fun w => (inr tt, w, [e]).

(** A call into a collaborator. *)
Definition call {A} (f : World T -> (Error T + A) * World T) : M A :=
  fun w => let '(r, w1) := f w in (r, w1, []).

Notation "x <- m ;; k" := (bind m (fun x => k))
  (at level 61, m at next level, right associativity).
Notation "m ;; k" := (bind m (fun _ => k))
  (at level 61, right associativity).

Definition logger_error (fmt : string) (a : list string) : M unit :=
  emit (Logged (mkLog ERROR fmt a)).

Definition logger_debug (fmt : string) (a : list string) : M unit :=
  emit (Logged (mkLog DEBUG fmt a)).

(** [async with session.get/post(...) as response]. *)
Definition send (r : Req) : M (Response T) :=
  emit (Issued r) ;; call (perform T r).

Definition do_raise_for_status (response : Response T) : M unit :=
  match raise_for_status T response with
  | Some e => raise e
  | None => ret tt
  end.

(** ** ExtendedAsyncBeacon *)

Record ExtendedAsyncBeacon : Type := mkBeacon {
  base_urls : list string;
  timeout : Z;
  session : option (Session T)
}.

Definition default_timeout : Z := 60.
Definition default_state_id : string := "head".

Definition get_consensus_client (endpoints : list string) (timeout : Z)
    (session : option (Session T)) : ExtendedAsyncBeacon :=
  mkBeacon endpoints timeout session.

(** [_make_session_get_request]; [s] is [self.session], which the only
    caller has just tested. *)
Definition _make_session_get_request (self : ExtendedAsyncBeacon)
    (s : Session T) (uri : string) : M Json :=
  let timeout := Some (timeout self) in
  logger_debug "GET %s" [uri] ;;
  response <- send (mkRequest GET uri timeout None (SharedSession s)) ;;
  do_raise_for_status response ;;
  data <- call (response_json T response) ;;
  ret data.

(** The request web3's helper is called for. *)
Definition web3_request (self : ExtendedAsyncBeacon) (uri : string) : Req :=
  mkRequest GET uri (Some (timeout self)) None Web3Helper.

(** The body of the [try] in [_async_make_get_request]. *)
Definition get_attempt (self : ExtendedAsyncBeacon) (endpoint_uri url : string)
    : M Json :=
  let uri := urljoin T url endpoint_uri in
  match session self with
  | Some s => _make_session_get_request self s uri
  | None =>
      emit (Issued (web3_request self uri)) ;;
      call (async_json_make_get_request T (web3_request self uri))
  end.

(** The [for i, url in enumerate(self.base_urls)] of
    [_async_make_get_request], entered at index [i] with [urls] left. *)
Fixpoint get_loop (self : ExtendedAsyncBeacon) (endpoint_uri : string)
    (i : nat) (urls : list string) : M Json :=
  match urls with
  | [] => ret (JObj [])
  | url :: rest =>
      try_except (get_attempt self endpoint_uri url)
        (fun error =>
           if recovered T error then
             if (Z.of_nat i =? Z.of_nat (List.length (base_urls self)) - 1)%Z
             then raise error
             else logger_error "%s: %s" [url; repr T error] ;;
                  get_loop self endpoint_uri (S i) rest
           else raise error)
  end.

Definition _async_make_get_request (self : ExtendedAsyncBeacon)
    (endpoint_uri : string) : M Json :=
  get_loop self endpoint_uri 0 (base_urls self).

Definition get_validators_by_ids (self : ExtendedAsyncBeacon)
    (validator_ids : list string) (state_id : string) : M Json :=
  let endpoint := GET_VALIDATORS state_id ("?id=" ++ join "&id=" validator_ids) in
  _async_make_get_request self endpoint.

(** The [data] dict of [submit_voluntary_exit]. *)
Definition voluntary_exit_data (epoch validator_index : Z) (signature : string)
    : Json :=
  JObj [("message", JObj [("epoch", JStr (str_int epoch));
                          ("validator_index", JStr (str_int validator_index))]);
        ("signature", JStr signature)].

Definition post_request (data : Json) (uri : string) : Req :=
  mkRequest POST uri None (Some data) FreshSession.

(** The body of the [try] in [submit_voluntary_exit]. *)
Definition post_attempt (data : Json) (url : string) : M unit :=
  let uri := urljoin T url GET_VOLUNTARY_EXITS in
  response <- send (post_request data uri) ;;
  do_raise_for_status response ;;
  ret tt.

(** The [for] loop of [submit_voluntary_exit]; falling off its end
    returns [None]. *)
Fixpoint post_loop (self : ExtendedAsyncBeacon) (data : Json)
    (i : nat) (urls : list string) : M unit :=
  match urls with
  | [] => ret tt
  | url :: rest =>
      try_except (post_attempt data url)
        (fun error =>
           if recovered T error then
             if (Z.of_nat i =? Z.of_nat (List.length (base_urls self)) - 1)%Z
             then raise error
             else logger_error "%s: %s" [url; repr T error] ;;
                  post_loop self data (S i) rest
           else raise error)
  end.

Definition submit_voluntary_exit (self : ExtendedAsyncBeacon)
    (epoch validator_index : Z) (signature : string) : M unit :=
  let data := voluntary_exit_data epoch validator_index signature in
  post_loop self data 0 (base_urls self).

(** The one request an attempt of the read operation issues. *)
Definition get_request (self : ExtendedAsyncBeacon) (endpoint_uri url : string)
    : Req :=
  let uri := urljoin T url endpoint_uri in
  match session self with
  | Some s => mkRequest GET uri (Some (timeout self)) None (SharedSession s)
  | None => web3_request self uri
  end.

(** ** Reading a trace *)

(** The record that [logger.error('%s: %s', url, repr(error))] emits. *)
Definition error_record (url : string) (error : Error T) : LogRecord :=
  mkLog ERROR "%s: %s" [url; repr T error].

(** The records logged at error level, oldest first. *)
Fixpoint error_records (t : list Ev) : list LogRecord :=
  match t with
  | [] => []
  | Logged r :: t' =>
      match levelname r with
      | ERROR => r :: error_records t'
      | DEBUG => error_records t'
      end
  | Issued _ :: t' => error_records t'
  end.

(** The requests issued, oldest first. *)
Fixpoint requests (t : list Ev) : list Req :=
  match t with
  | [] => []
  | Logged _ :: t' => requests t'
  | Issued r :: t' => r :: requests t'
  end.

(** The records logged at debug level, oldest first. *)
Fixpoint debug_records (t : list Ev) : list LogRecord :=
  match t with
  | [] => []
  | Logged r :: t' =>
      match levelname r with
      | DEBUG => r :: debug_records t'
      | ERROR => debug_records t'
      end
  | Issued _ :: t' => debug_records t'
  end.

(** ** The shape the two loops share

    [sweep n attempt done i urls] tries [attempt] on each url in turn;
    [n] is the length the index is compared with and [done] is what
    runs when the loop falls off its end. *)
Fixpoint sweep {A} (n : nat) (attempt : string -> M A) (done : M A)
    (i : nat) (urls : list string) : M A :=
  match urls with
  | [] => done
  | url :: rest =>
      try_except (attempt url)
        (fun error =>
           if recovered T error then
             if (Z.of_nat i =? Z.of_nat n - 1)%Z
             then raise error
             else logger_error "%s: %s" [url; repr T error] ;;
                  sweep n attempt done (S i) rest
           else raise error)
  end.

(** [url] fails with [err url], a recoverable error, whenever it is
    tried. *)
Definition fails_with {A} (attempt : string -> M A) (err : string -> Error T)
    (url : string) : Prop :=
  recovered T (err url) = true /\
  forall w, outcome (attempt url w) = inl (err url).

End Client.

Arguments outcome {T A} r.
Arguments final_world {T A} r.
Arguments trace {T A} r.
Arguments mkBeacon {T}.
Arguments base_urls {T}.
Arguments timeout {T}.
Arguments session {T}.

(** ** A scripted transport

    A beacon node behind every base url in [up] answers; every other
    url refuses the connection.  The world counts the requests served,
    an error is its message, a response is a status with a body. *)
Definition served (up : list string) (u : string) : bool :=
  existsb (fun base => prefix base u) up.

Definition scripted (up : list string) : Transport := {|
  World := nat;
  Error := string;
  Session := unit;
  Response := Z * Json;
  recovered := fun _ => true;
  repr := fun e => e;
  urljoin := fun base path => (base ++ path)%string;
  perform := fun r w =>
    (if served up (uri r) then inr (200%Z, JObj [("data", JArr [])])
     else inl ("ClientConnectorError " ++ uri r)%string, S w);
  raise_for_status := fun r =>
    if (400 <=? fst r)%Z then Some "ClientResponseError" else None;
  response_json := fun r w => (inr (snd r), w);
  async_json_make_get_request := fun r w =>
    (if served up (uri r) then inr (JObj [("data", JArr [])])
     else inl ("ClientConnectorError " ++ uri r)%string, S w)
|}.

(** A second script, with more ways to fail: base urls in [up] answer,
    those in [refusing] answer with status 400, a call to one in
    [broken] raises an exception that is not among
    [AiohttpRecoveredErrors], and every other url refuses the
    connection. *)
Definition staged (up refusing broken : list string) : Transport := {|
  World := nat;
  Error := string;
  Session := unit;
  Response := Z * Json;
  recovered := fun e => prefix "Client" e;
  repr := fun e => e;
  urljoin := fun base path => (base ++ path)%string;
  perform := fun r w =>
    (if served up (uri r) then inr (200%Z, JObj [("data", JArr [])])
     else if served refusing (uri r) then inr (400%Z, JNull)
     else if served broken (uri r) then inl "InvalidURL"
     else inl ("ClientConnectorError " ++ uri r)%string, S w);
  raise_for_status := fun r =>
    if (400 <=? fst r)%Z then Some "ClientResponseError" else None;
  response_json := fun r w => (inr (snd r), w);
  async_json_make_get_request := fun r w =>
    (if served up (uri r) then inr (JObj [("data", JArr [])])
     else if served refusing (uri r) then inl "ClientResponseError"
     else if served broken (uri r) then inl "InvalidURL"
     else inl ("ClientConnectorError " ++ uri r)%string, S w)
|}.

(** A third script, for bodies: every base url answers with status
    200, but the body of a url in [garbling] does not decode.  A
    response is a status with the decoded body, if there is one. *)
Definition garbled (garbling : list string) : Transport := {|
  World := nat;
  Error := string;
  Session := unit;
  Response := Z * option Json;
  recovered := fun _ => true;
  repr := fun e => e;
  urljoin := fun base path => (base ++ path)%string;
  perform := fun r w =>
    (inr (200%Z, if served garbling (uri r) then None
                 else Some (JObj [("data", JArr [])])), S w);
  raise_for_status := fun r =>
    if (400 <=? fst r)%Z then Some "ClientResponseError" else None;
  response_json := fun r w =>
    (match snd r with
     | Some body => inr body
     | None => inl "ContentTypeError"
     end, w);
  async_json_make_get_request := fun r w =>
    (if served garbling (uri r) then inl "ContentTypeError"
     else inr (JObj [("data", JArr [])]), S w)
|}.

(** * Properties *)

(** ** Traces *)

Section TraceFacts.

Context (T : Transport).

Lemma error_records_app (t1 t2 : list (Ev T)) :
  error_records T (t1 ++ t2) = error_records T t1 ++ error_records T t2.
Proof.
  induction t1 as [|[r|r] t1 IH]; simpl; auto.
  destruct (levelname r); simpl; now rewrite IH.
Qed.

Lemma requests_app (t1 t2 : list (Ev T)) :
  requests T (t1 ++ t2) = requests T t1 ++ requests T t2.
Proof.
  induction t1 as [|[r|r] t1 IH]; simpl; auto.
  now rewrite IH.
Qed.

End TraceFacts.

(** ** The sweep *)

Section SweepFacts.

Context (T : Transport) {A : Type}.
Variables (n : nat) (attempt : string -> M T A) (done : M T A).

(** A success ends the sweep at once. *)
Lemma sweep_ok_step i url rest w a w' t :
  attempt url w = (inr a, w', t) ->
  sweep T n attempt done i (url :: rest) w = (inr a, w', t).
Proof. intros E. simpl. unfold try_except. now rewrite E. Qed.

(** A recoverable failure is re-raised at index [n - 1] and logged
    before the next attempt anywhere else. *)
Lemma sweep_fail_step i url rest w e w' t :
  attempt url w = (inl e, w', t) ->
  recovered T e = true ->
  sweep T n attempt done i (url :: rest) w =
    if (Z.of_nat i =? Z.of_nat n - 1)%Z then (inl e, w', t)
    else let '(r, w2, t2) := sweep T n attempt done (S i) rest w' in
         (r, w2, t ++ Logged (error_record T url e) :: t2).
Proof.
  intros E R. simpl. unfold try_except. rewrite E, R.
  destruct (Z.of_nat i =? Z.of_nat n - 1)%Z.
  - unfold raise. now rewrite app_nil_r.
  - unfold bind, logger_error, emit.
    destruct (sweep T n attempt done (S i) rest w') as [[r w2] t2].
    reflexivity.
Qed.

(** Any other exception leaves the sweep untouched by the handler. *)
Lemma sweep_unrecovered_step i url rest w e w' t :
  attempt url w = (inl e, w', t) ->
  recovered T e = false ->
  sweep T n attempt done i (url :: rest) w = (inl e, w', t).
Proof.
  intros E R. simpl. unfold try_except. rewrite E, R.
  unfold raise. now rewrite app_nil_r.
Qed.

(** Whatever holds of the requests of every attempt and of the
    fall-through holds of the requests of the sweep. *)
Lemma sweep_requests_Forall (P : Req T -> Prop) :
  (forall url w, Forall P (requests T (trace (attempt url w)))) ->
  (forall w, Forall P (requests T (trace (done w)))) ->
  forall urls i w, Forall P (requests T (trace (sweep T n attempt done i urls w))).
Proof.
  intros Ha Hd urls. induction urls as [|url rest IH]; intros i w.
  - apply Hd.
  - specialize (Ha url w).
    destruct (attempt url w) as [[[e|a] w'] t] eqn:E.
    + destruct (recovered T e) eqn:R.
      * rewrite (sweep_fail_step i url rest w e w' t E R).
        destruct (Z.of_nat i =? Z.of_nat n - 1)%Z; [exact Ha|].
        specialize (IH (S i) w').
        destruct (sweep T n attempt done (S i) rest w') as [[r w2] t2].
        unfold trace in *. simpl in *.
        rewrite requests_app. apply Forall_app. split; assumption.
      * now rewrite (sweep_unrecovered_step i url rest w e w' t E R).
    + now rewrite (sweep_ok_step i url rest w a w' t E).
Qed.

(** The first attempt is always made, and its events open the trace. *)
Lemma sweep_trace_head i url rest w :
  exists t2,
    trace (sweep T n attempt done i (url :: rest) w) =
      trace (attempt url w) ++ t2.
Proof.
  destruct (attempt url w) as [[[e|a] w'] t] eqn:E.
  - destruct (recovered T e) eqn:R.
    + rewrite (sweep_fail_step i url rest w e w' t E R).
      destruct (Z.of_nat i =? Z.of_nat n - 1)%Z.
      * exists []. unfold trace. simpl. now rewrite app_nil_r.
      * destruct (sweep T n attempt done (S i) rest w') as [[r w2] t2].
        now exists (Logged (error_record T url e) :: t2).
    + rewrite (sweep_unrecovered_step i url rest w e w' t E R).
      exists []. unfold trace. simpl. now rewrite app_nil_r.
  - rewrite (sweep_ok_step i url rest w a w' t E).
    exists []. unfold trace. simpl. now rewrite app_nil_r.
Qed.

(** *** A run of failing endpoints *)

Variable req : string -> Req T.
Hypothesis attempt_quiet :
  forall url w, error_records T (trace (attempt url w)) = [].
Hypothesis attempt_requests :
  forall url w, requests T (trace (attempt url w)) = [req url].

Variable err : string -> Error T.

(** Endpoints that all fail, none of them at the last index, are each
    tried once and logged once, and the sweep goes on behind them. *)
Lemma sweep_failing_prefix pre :
  forall k i w,
    (forall url, In url pre -> fails_with T attempt err url) ->
    (Z.of_nat i + Z.of_nat (List.length pre) <= Z.of_nat n - 1)%Z ->
    exists w1 t1,
      sweep T n attempt done i (pre ++ k) w =
        (let '(r, w2, t2) :=
           sweep T n attempt done (i + List.length pre) k w1 in
         (r, w2, t1 ++ t2)) /\
      error_records T t1 = map (fun url => error_record T url (err url)) pre /\
      requests T t1 = map req pre.
Proof.
  induction pre as [|url pre IH]; intros k i w Hf Hi.
  - exists w, []. simpl. rewrite Nat.add_0_r.
    destruct (sweep T n attempt done i k w) as [[r w2] t2]. auto.
  - destruct (Hf url (or_introl eq_refl)) as [R Ho].
    specialize (Ho w).
    pose proof (attempt_quiet url w) as Hq.
    pose proof (attempt_requests url w) as Hr.
    destruct (attempt url w) as [[r0 w'] t] eqn:E.
    unfold outcome, trace in Ho, Hq, Hr. simpl in Ho, Hq, Hr. subst r0.
    simpl List.length in *.
    destruct (IH k (S i) w') as (w1 & t1 & Hs & He & Hq1).
    { intros u Hu. apply Hf. now right. }
    { lia. }
    exists w1, (t ++ Logged (error_record T url (err url)) :: t1).
    split; [|split].
    + change ((url :: pre) ++ k) with (url :: (pre ++ k)).
      rewrite (sweep_fail_step i url (pre ++ k) w (err url) w' t E R).
      replace (Z.of_nat i =? Z.of_nat n - 1)%Z with false
        by (symmetry; apply Z.eqb_neq; lia).
      rewrite Hs. replace (i + S (List.length pre)) with (S i + List.length pre) by lia.
      destruct (sweep T n attempt done (S i + List.length pre) k w1) as [[r w2] t2].
      now rewrite <- app_assoc.
    + rewrite error_records_app, Hq. simpl. now rewrite He.
    + rewrite requests_app, Hr. simpl. now rewrite Hq1.
Qed.

End SweepFacts.

(** ** The client *)

Section ClientFacts.

Context (T : Transport).
Implicit Types (self : ExtendedAsyncBeacon T) (w : World T).

(** Both loops are sweeps over [self.base_urls]. *)
Lemma get_loop_sweep self endpoint_uri urls :
  forall i w,
    get_loop T self endpoint_uri i urls w =
    sweep T (List.length (base_urls self)) (get_attempt T self endpoint_uri)
      (ret T (JObj [])) i urls w.
Proof.
  induction urls as [|url rest IH]; intros i w; simpl; [reflexivity|].
  unfold try_except.
  destruct (get_attempt T self endpoint_uri url w) as [[[e|a] w'] t]; auto.
  destruct (recovered T e); auto.
  destruct (Z.of_nat i =? Z.of_nat (List.length (base_urls self)) - 1)%Z; auto.
  unfold bind, logger_error, emit. now rewrite IH.
Qed.

Lemma post_loop_sweep self data urls :
  forall i w,
    post_loop T self data i urls w =
    sweep T (List.length (base_urls self)) (post_attempt T data)
      (ret T tt) i urls w.
Proof.
  induction urls as [|url rest IH]; intros i w; simpl; [reflexivity|].
  unfold try_except.
  destruct (post_attempt T data url w) as [[[e|a] w'] t]; auto.
  destruct (recovered T e); auto.
  destruct (Z.of_nat i =? Z.of_nat (List.length (base_urls self)) - 1)%Z; auto.
  unfold bind, logger_error, emit. now rewrite IH.
Qed.

(** What one attempt leaves in the trace does not depend on how the
    endpoint answers. *)
Lemma get_attempt_requests self endpoint_uri url w :
  requests T (trace (get_attempt T self endpoint_uri url w)) =
    [get_request T self endpoint_uri url].
Proof.
  unfold get_attempt, get_request, _make_session_get_request, send,
    do_raise_for_status, bind, emit, call, ret, raise, trace.
  destruct (session self) as [s|]; simpl.
  - destruct (perform T _ w) as [[e|resp] w1]; simpl; [reflexivity|].
    destruct (raise_for_status T resp); simpl; [reflexivity|].
    destruct (response_json T resp w1) as [[e|d] w2]; reflexivity.
  - destruct (async_json_make_get_request T _ w) as [r w1]; reflexivity.
Qed.

Lemma get_attempt_quiet self endpoint_uri url w :
  error_records T (trace (get_attempt T self endpoint_uri url w)) = [].
Proof.
  unfold get_attempt, _make_session_get_request, send,
    do_raise_for_status, bind, emit, call, ret, raise, trace.
  destruct (session self) as [s|]; simpl.
  - destruct (perform T _ w) as [[e|resp] w1]; simpl; [reflexivity|].
    destruct (raise_for_status T resp); simpl; [reflexivity|].
    destruct (response_json T resp w1) as [[e|d] w2]; reflexivity.
  - destruct (async_json_make_get_request T _ w) as [r w1]; reflexivity.
Qed.

Lemma post_attempt_trace data url w :
  trace (post_attempt T data url w) =
    [Issued (post_request T data (urljoin T url GET_VOLUNTARY_EXITS))].
Proof.
  unfold post_attempt, send, do_raise_for_status, bind, emit, call, ret,
    raise, trace.
  simpl.
  destruct (perform T _ w) as [[e|resp] w1]; simpl; [reflexivity|].
  destruct (raise_for_status T resp); reflexivity.
Qed.

Lemma post_attempt_requests data url w :
  requests T (trace (post_attempt T data url w)) =
    [post_request T data (urljoin T url GET_VOLUNTARY_EXITS)].
Proof. now rewrite post_attempt_trace. Qed.

Lemma post_attempt_quiet data url w :
  error_records T (trace (post_attempt T data url w)) = [].
Proof. now rewrite post_attempt_trace. Qed.

(** When every endpoint fails, the sweep of a non-empty list ends at
    its last index with that endpoint's error. *)
Lemma sweep_all_fail {A} (attempt : string -> M T A) (done : M T A)
    (req : string -> Req T) (err : string -> Error T) pre u w :
  (forall url w, error_records T (trace (attempt url w)) = []) ->
  (forall url w, requests T (trace (attempt url w)) = [req url]) ->
  (forall url, In url (pre ++ [u]) -> fails_with T attempt err url) ->
  let run := sweep T (List.length (pre ++ [u])) attempt done 0 (pre ++ [u]) w in
  outcome run = inl (err u) /\
  error_records T (trace run) = map (fun url => error_record T url (err url)) pre /\
  requests T (trace run) = map req (pre ++ [u]).
Proof.
  intros Hq Hr Hf run. subst run.
  destruct (sweep_failing_prefix T (List.length (pre ++ [u])) attempt done
              req Hq Hr err pre [u] 0 w) as (w1 & t1 & Hs & He & Hq1).
  { intros url Hu. apply Hf, in_or_app. now left. }
  { rewrite length_app. simpl. lia. }
  rewrite Hs. change (0 + List.length pre) with (List.length pre).
  destruct (Hf u) as [R Ho]; [apply in_or_app; right; now left|].
  specialize (Ho w1). pose proof (Hq u w1) as Hqu. pose proof (Hr u w1) as Hru.
  destruct (attempt u w1) as [[r0 w'] t] eqn:E.
  unfold outcome, trace in Ho, Hqu, Hru. simpl in Ho, Hqu, Hru. subst r0.
  rewrite (sweep_fail_step T _ attempt done _ u [] w1 (err u) w' t E R).
  replace (Z.of_nat (List.length pre) =? Z.of_nat (List.length (pre ++ [u])) - 1)%Z
    with true by (symmetry; apply Z.eqb_eq; rewrite length_app; simpl; lia).
  unfold outcome, trace. simpl. split; [reflexivity|split].
  - rewrite error_records_app, He, Hqu. apply app_nil_r.
  - rewrite requests_app, Hq1, Hru. now rewrite map_app.
Qed.

(** When only the last endpoint answers, the sweep returns its answer
    and has logged each endpoint before it once, in order. *)
Lemma sweep_last_succeeds {A} (attempt : string -> M T A) (done : M T A)
    (req : string -> Req T) (err : string -> Error T) pre u (a : A) w :
  (forall url w, error_records T (trace (attempt url w)) = []) ->
  (forall url w, requests T (trace (attempt url w)) = [req url]) ->
  (forall url, In url pre -> fails_with T attempt err url) ->
  (forall w', outcome (attempt u w') = inr a) ->
  let run := sweep T (List.length (pre ++ [u])) attempt done 0 (pre ++ [u]) w in
  outcome run = inr a /\
  error_records T (trace run) = map (fun url => error_record T url (err url)) pre /\
  requests T (trace run) = map req (pre ++ [u]).
Proof.
  intros Hq Hr Hf Hok run. subst run.
  destruct (sweep_failing_prefix T (List.length (pre ++ [u])) attempt done
              req Hq Hr err pre [u] 0 w) as (w1 & t1 & Hs & He & Hq1).
  { exact Hf. }
  { rewrite length_app. simpl. lia. }
  rewrite Hs. change (0 + List.length pre) with (List.length pre).
  specialize (Hok w1). pose proof (Hq u w1) as Hqu. pose proof (Hr u w1) as Hru.
  destruct (attempt u w1) as [[r0 w'] t] eqn:E.
  unfold outcome, trace in Hok, Hqu, Hru. simpl in Hok, Hqu, Hru. subst r0.
  rewrite (sweep_ok_step T _ attempt done _ u [] w1 a w' t E).
  unfold outcome, trace. simpl. split; [reflexivity|split].
  - rewrite error_records_app, He, Hqu. apply app_nil_r.
  - rewrite requests_app, Hq1, Hru. now rewrite map_app.
Qed.

End ClientFacts.

(** ** Exhausting the endpoints *)

(** C1, as amended: on a non-empty endpoint list whose every endpoint
    fails with a recoverable error, [_async_make_get_request], and so
    [get_validators_by_ids], raises the error of the last endpoint in
    list order. *)
Theorem read_raises_last_error (T : Transport) (self : ExtendedAsyncBeacon T)
    (endpoint_uri : string) (err : string -> Error T) (w : World T) :
  base_urls self <> [] ->
  (forall url, In url (base_urls self) ->
     fails_with T (get_attempt T self endpoint_uri) err url) ->
  outcome (_async_make_get_request T self endpoint_uri w) =
    inl (err (last (base_urls self) "")) /\
  forall validator_ids state_id,
    GET_VALIDATORS state_id ("?id=" ++ join "&id=" validator_ids) = endpoint_uri ->
    outcome (get_validators_by_ids T self validator_ids state_id w) =
      inl (err (last (base_urls self) "")).
Proof.
  intros Hne Hf.
  assert (H : outcome (_async_make_get_request T self endpoint_uri w) =
              inl (err (last (base_urls self) ""))).
  { unfold _async_make_get_request. rewrite get_loop_sweep.
    destruct (exists_last Hne) as (pre & u & Heq).
    rewrite Heq in *. rewrite last_last.
    apply (sweep_all_fail T (get_attempt T self endpoint_uri) (ret T (JObj []))
             (get_request T self endpoint_uri) err pre u w).
    - intros. apply get_attempt_quiet.
    - intros. apply get_attempt_requests.
    - exact Hf. }
  split; [exact H|].
  intros ids st <-. exact H.
Qed.

Lemma read_raises_last_error_witness :
  outcome (get_validators_by_ids (scripted [])
             (get_consensus_client (scripted []) ["http://a"; "http://b"] 60 None)
             ["100"; "200"] "head" 0) =
    inl "ClientConnectorError http://b/eth/v1/beacon/states/head/validators?id=100&id=200".
Proof.
  refine (proj2 (read_raises_last_error (scripted [])
            (get_consensus_client (scripted []) ["http://a"; "http://b"] 60 None)
            "/eth/v1/beacon/states/head/validators?id=100&id=200"
            (fun url => ("ClientConnectorError " ++ url ++
               "/eth/v1/beacon/states/head/validators?id=100&id=200")%string)
            0 _ _) ["100"; "200"] "head" eq_refl).
  - discriminate.
  - intros url [<-|[<-|[]]]; split; intros; reflexivity.
Defined.

(** C1 as stated fails on the empty list: every endpoint of it fails,
    there being none, and the read returns instead of raising. *)
Lemma empty_list_read_does_not_raise :
  (forall url,
     In url (base_urls (get_consensus_client (scripted []) [] 60 None)) ->
     fails_with (scripted [])
       (get_attempt (scripted []) (get_consensus_client (scripted []) [] 60 None)
          "/eth/v1/beacon/states/head/validators?id=100&id=200")
       (fun url => ("ClientConnectorError " ++ url)%string) url) /\
  ~ exists e,
      outcome (get_validators_by_ids (scripted [])
                 (get_consensus_client (scripted []) [] 60 None)
                 ["100"; "200"] "head" 0) = inl e.
Proof.
  split.
  - intros url [].
  - intros [e H]. discriminate H.
Qed.

(** C2: on an endpoint list whose last endpoint answers and whose
    every earlier endpoint fails with a recoverable error, the read
    returns the last endpoint's response; the records logged at error
    level are one per earlier endpoint, in order, and every endpoint is
    sent one request. *)
Theorem read_returns_last_response (T : Transport) (self : ExtendedAsyncBeacon T)
    (endpoint_uri : string) (err : string -> Error T)
    (pre : list string) (u : string) (response : Json) (w : World T) :
  base_urls self = pre ++ [u] ->
  (forall url, In url pre ->
     fails_with T (get_attempt T self endpoint_uri) err url) ->
  (forall w', outcome (get_attempt T self endpoint_uri u w') = inr response) ->
  let run := _async_make_get_request T self endpoint_uri w in
  outcome run = inr response /\
  error_records T (trace run) =
    map (fun url => error_record T url (err url)) pre /\
  requests T (trace run) = map (get_request T self endpoint_uri) (pre ++ [u]).
Proof.
  intros Heq Hf Hok run. subst run.
  unfold _async_make_get_request. rewrite get_loop_sweep. rewrite Heq.
  apply (sweep_last_succeeds T (get_attempt T self endpoint_uri)
           (ret T (JObj [])) (get_request T self endpoint_uri) err pre u
           response w).
  - intros. apply get_attempt_quiet.
  - intros. apply get_attempt_requests.
  - exact Hf.
  - exact Hok.
Qed.

Lemma read_returns_last_response_witness :
  outcome (get_validators_by_ids (scripted ["http://c"])
             (get_consensus_client (scripted ["http://c"])
                ["http://a"; "http://b"; "http://c"] 60 None)
             ["100"; "200"] "head" 0) = inr (JObj [("data", JArr [])]) /\
  error_records (scripted ["http://c"])
    (trace (get_validators_by_ids (scripted ["http://c"])
              (get_consensus_client (scripted ["http://c"])
                 ["http://a"; "http://b"; "http://c"] 60 None)
              ["100"; "200"] "head" 0)) =
    [mkLog ERROR "%s: %s"
       ["http://a";
        "ClientConnectorError http://a/eth/v1/beacon/states/head/validators?id=100&id=200"];
     mkLog ERROR "%s: %s"
       ["http://b";
        "ClientConnectorError http://b/eth/v1/beacon/states/head/validators?id=100&id=200"]].
Proof.
  refine (let H := read_returns_last_response (scripted ["http://c"])
            (get_consensus_client (scripted ["http://c"])
               ["http://a"; "http://b"; "http://c"] 60 None)
            "/eth/v1/beacon/states/head/validators?id=100&id=200"
            (fun url => ("ClientConnectorError " ++ url ++
               "/eth/v1/beacon/states/head/validators?id=100&id=200")%string)
            ["http://a"; "http://b"] "http://c" (JObj [("data", JArr [])]) 0
            eq_refl _ _ in conj (proj1 H) (proj1 (proj2 H))).
  - intros url [<-|[<-|[]]]; split; intros; reflexivity.
  - intros w'. reflexivity.
Defined.

(** ** What is logged *)

(** C3, as amended: a recoverable failure of the attempt at any index
    but the last is logged at error level, with the endpoint and the
    error, before the next endpoint is tried; at the last index the
    error is raised to the caller and the loop logs nothing for it.
    This holds of the read loop and of the write loop. *)
Theorem failure_logged_unless_last (T : Transport) (self : ExtendedAsyncBeacon T)
    (pre : list string) (url : string) (rest : list string) :
  base_urls self = pre ++ url :: rest ->
  (forall endpoint_uri w e w' t,
     get_attempt T self endpoint_uri url w = (inl e, w', t) ->
     recovered T e = true ->
     get_loop T self endpoint_uri (List.length pre) (url :: rest) w =
       match rest with
       | [] => (inl e, w', t)
       | _ :: _ =>
           let '(r, w2, t2) :=
             get_loop T self endpoint_uri (S (List.length pre)) rest w' in
           (r, w2, t ++ Logged (error_record T url e) :: t2)
       end) /\
  (forall data w e w' t,
     post_attempt T data url w = (inl e, w', t) ->
     recovered T e = true ->
     post_loop T self data (List.length pre) (url :: rest) w =
       match rest with
       | [] => (inl e, w', t)
       | _ :: _ =>
           let '(r, w2, t2) :=
             post_loop T self data (S (List.length pre)) rest w' in
           (r, w2, t ++ Logged (error_record T url e) :: t2)
       end).
Proof.
  intros Heq.
  assert (Hlast : (Z.of_nat (List.length pre) =?
                   Z.of_nat (List.length (base_urls self)) - 1)%Z =
                  match rest with [] => true | _ :: _ => false end).
  { rewrite Heq, length_app. destruct rest; simpl List.length.
    - apply Z.eqb_eq. lia.
    - apply Z.eqb_neq. lia. }
  split.
  - intros ep w e w' t E R.
    rewrite get_loop_sweep.
    rewrite (sweep_fail_step T _ _ _ _ url rest w e w' t E R), Hlast.
    destruct rest as [|u rest']; [reflexivity|].
    now rewrite get_loop_sweep.
  - intros data w e w' t E R.
    rewrite post_loop_sweep.
    rewrite (sweep_fail_step T _ _ _ _ url rest w e w' t E R), Hlast.
    destruct rest as [|u rest']; [reflexivity|].
    now rewrite post_loop_sweep.
Qed.

Lemma failure_logged_unless_last_witness :
  post_loop (scripted [])
    (get_consensus_client (scripted []) ["http://a"; "http://b"] 60 None)
    (JObj []) 0 ["http://a"; "http://b"] 0 =
  (let '(r, w2, t2) :=
     post_loop (scripted [])
       (get_consensus_client (scripted []) ["http://a"; "http://b"] 60 None)
       (JObj []) 1 ["http://b"] 1 in
   (r, w2,
    [Issued (post_request (scripted []) (JObj [])
               "http://a/eth/v1/beacon/pool/voluntary_exits")] ++
    Logged (mkLog ERROR "%s: %s"
              ["http://a";
               "ClientConnectorError http://a/eth/v1/beacon/pool/voluntary_exits"])
    :: t2)).
Proof.
  exact (proj2 (failure_logged_unless_last (scripted [])
                  (get_consensus_client (scripted []) ["http://a"; "http://b"] 60 None)
                  [] "http://a" ["http://b"] eq_refl)
           (JObj []) 0
           "ClientConnectorError http://a/eth/v1/beacon/pool/voluntary_exits"
           1 _ eq_refl eq_refl).
Defined.

(** C3 as stated fails at the last index: with one endpoint, which
    refuses the connection, both operations raise its error and no
    record at error level has been logged. *)
Lemma last_failure_is_not_logged :
  (outcome (get_validators_by_ids (scripted [])
              (get_consensus_client (scripted []) ["http://a"] 60 None)
              ["100"; "200"] "head" 0) =
     inl "ClientConnectorError http://a/eth/v1/beacon/states/head/validators?id=100&id=200" /\
   error_records (scripted [])
     (trace (get_validators_by_ids (scripted [])
               (get_consensus_client (scripted []) ["http://a"] 60 None)
               ["100"; "200"] "head" 0)) = []) /\
  (outcome (submit_voluntary_exit (scripted [])
              (get_consensus_client (scripted []) ["http://a"] 60 None)
              12345 7 "0xabc" 0) =
     inl "ClientConnectorError http://a/eth/v1/beacon/pool/voluntary_exits" /\
   error_records (scripted [])
     (trace (submit_voluntary_exit (scripted [])
               (get_consensus_client (scripted []) ["http://a"] 60 None)
               12345 7 "0xabc" 0)) = []).
Proof. repeat split. Qed.

(** ** The empty endpoint list *)

(** C4: with no endpoint configured, [get_validators_by_ids] returns
    the empty dict; it raises nothing, issues no request, logs nothing
    and leaves the world as it was. *)
Theorem read_empty_list_returns_empty_dict (T : Transport) (timeout : Z)
    (session : option (Session T)) (validator_ids : list string)
    (state_id : string) (w : World T) :
  get_validators_by_ids T (get_consensus_client T [] timeout session)
    validator_ids state_id w = (inr (JObj []), w, []).
Proof. reflexivity. Qed.

(** C10: with no endpoint configured, [submit_voluntary_exit] returns
    [None] without raising and without issuing a request; the caller
    receives what any submission that does not raise returns. *)
Theorem submit_empty_list_returns_none (T : Transport) (timeout : Z)
    (session : option (Session T)) (epoch validator_index : Z)
    (signature : string) (w : World T) :
  submit_voluntary_exit T (get_consensus_client T [] timeout session)
    epoch validator_index signature w = (inr tt, w, []) /\
  forall self' epoch' validator_index' signature' w',
    (forall e, outcome (submit_voluntary_exit T self' epoch' validator_index'
                          signature' w') <> inl e) ->
    outcome (submit_voluntary_exit T self' epoch' validator_index' signature' w') =
    outcome (submit_voluntary_exit T (get_consensus_client T [] timeout session)
               epoch validator_index signature w).
Proof.
  split; [reflexivity|].
  intros self' epoch' vi' sig' w' H.
  destruct (outcome (submit_voluntary_exit T self' epoch' vi' sig' w'))
    as [e|[]] eqn:E.
  - now destruct (H e).
  - reflexivity.
Qed.

Lemma submit_empty_list_returns_none_witness :
  outcome (submit_voluntary_exit (scripted ["http://a"])
             (get_consensus_client (scripted ["http://a"]) ["http://a"] 60 None)
             12345 7 "0xabc" 0) =
  outcome (submit_voluntary_exit (scripted ["http://a"])
             (get_consensus_client (scripted ["http://a"]) [] 60 None)
             12345 7 "0xabc" 0).
Proof.
  apply (proj2 (submit_empty_list_returns_none (scripted ["http://a"]) 60 None
                  12345 7 "0xabc" 0)).
  intros e H. discriminate H.
Defined.

(** C5, as amended: on a client built with an empty endpoint list the
    first use of either operation reports no error: the read returns
    the empty dict, the write returns [None], and neither issues a
    request. *)
Theorem empty_list_first_use_reports_nothing (T : Transport) (timeout : Z)
    (session : option (Session T)) (validator_ids : list string)
    (state_id : string) (epoch validator_index : Z) (signature : string)
    (w : World T) :
  outcome (get_validators_by_ids T (get_consensus_client T [] timeout session)
             validator_ids state_id w) = inr (JObj []) /\
  outcome (submit_voluntary_exit T (get_consensus_client T [] timeout session)
             epoch validator_index signature w) = inr tt /\
  requests T (trace (get_validators_by_ids T
                       (get_consensus_client T [] timeout session)
                       validator_ids state_id w)) = [] /\
  requests T (trace (submit_voluntary_exit T
                       (get_consensus_client T [] timeout session)
                       epoch validator_index signature w)) = [].
Proof. repeat split. Qed.

(** C5 as stated fails: on a client with no endpoint neither operation
    ends in an error. *)
Lemma empty_list_first_use_is_no_error :
  (~ exists e,
       outcome (get_validators_by_ids (scripted [])
                  (get_consensus_client (scripted []) [] 60 None)
                  ["100"; "200"] "head" 0) = inl e) /\
  (~ exists e,
       outcome (submit_voluntary_exit (scripted [])
                  (get_consensus_client (scripted []) [] 60 None)
                  12345 7 "0xabc" 0) = inl e).
Proof. split; intros [e H]; discriminate H. Qed.

(** ** The requests *)

(** Every request of the read operation carries the client's timeout. *)
Lemma read_requests_carry_timeout (T : Transport) (self : ExtendedAsyncBeacon T)
    (endpoint_uri : string) (w : World T) :
  Forall (fun r => method r = GET /\ req_timeout r = Some (timeout self))
    (requests T (trace (_async_make_get_request T self endpoint_uri w))).
Proof.
  unfold _async_make_get_request. rewrite get_loop_sweep.
  apply sweep_requests_Forall.
  - intros url w0. rewrite get_attempt_requests.
    constructor; [|constructor].
    unfold get_request. now destruct (session self).
  - intros w0. constructor.
Qed.

(** Every request of the write operation is a POST of the exit message
    through a session of its own, and carries no timeout. *)
Lemma write_requests_shape (T : Transport) (self : ExtendedAsyncBeacon T)
    (epoch validator_index : Z) (signature : string) (w : World T) :
  Forall (fun r => method r = POST /\
                   req_json r = Some (voluntary_exit_data epoch validator_index
                                        signature) /\
                   req_timeout r = None /\
                   channel r = FreshSession)
    (requests T (trace (submit_voluntary_exit T self epoch validator_index
                          signature w))).
Proof.
  unfold submit_voluntary_exit. rewrite post_loop_sweep.
  apply sweep_requests_Forall.
  - intros url w0. rewrite post_attempt_requests.
    constructor; [|constructor]. now repeat split.
  - intros w0. constructor.
Qed.

(** C6 fails on the write path: a client built with a timeout of 10
    posts the exit message with no timeout argument, while its read
    request carries the 10. *)
Theorem submit_request_carries_no_timeout :
  timeout (get_consensus_client (scripted ["http://a"]) ["http://a"] 10 None) = 10%Z /\
  map req_timeout
    (requests (scripted ["http://a"])
       (trace (submit_voluntary_exit (scripted ["http://a"])
                 (get_consensus_client (scripted ["http://a"]) ["http://a"] 10 None)
                 12345 7 "0xabc" 0))) = [None] /\
  map req_timeout
    (requests (scripted ["http://a"])
       (trace (get_validators_by_ids (scripted ["http://a"])
                 (get_consensus_client (scripted ["http://a"]) ["http://a"] 10 None)
                 ["100"; "200"] "head" 0))) = [Some 10%Z].
Proof. repeat split. Qed.

(** C7: [get_validators_by_ids(['100', '200'])], with the default state
    id, first issues a GET for
    [/eth/v1/beacon/states/head/validators?id=100&id=200] joined to the
    first base url. *)
Theorem read_first_request (T : Transport) (u : string) (rest : list string)
    (secs : Z) (shared : option (Session T)) (w : World T) :
  let self := get_consensus_client T (u :: rest) secs shared in
  let first :=
    hd_error (requests T (trace (get_validators_by_ids T self ["100"; "200"]
                                   default_state_id w))) in
  option_map method first = Some GET /\
  option_map uri first =
    Some (urljoin T u "/eth/v1/beacon/states/head/validators?id=100&id=200") /\
  first = Some (get_request T self
                  "/eth/v1/beacon/states/head/validators?id=100&id=200" u).
Proof.
  intros self first.
  assert (H : first = Some (get_request T self
                  "/eth/v1/beacon/states/head/validators?id=100&id=200" u)).
  { subst first. unfold get_validators_by_ids, _async_make_get_request.
    rewrite get_loop_sweep.
    change (base_urls self) with (u :: rest).
    destruct (sweep_trace_head T (List.length (u :: rest))
                (get_attempt T self (GET_VALIDATORS default_state_id
                   ("?id=" ++ join "&id=" ["100"; "200"])))
                (ret T (JObj [])) 0 u rest w) as [t2 Ht].
    rewrite Ht, requests_app, get_attempt_requests. reflexivity. }
  rewrite H. unfold get_request, web3_request.
  destruct (session self); repeat split.
Qed.

(** ** The exit message *)

(** [str] prints a numeral that reads back as the number. *)
Lemma int_of_str_str_int (n : Z) : int_of_str (str_int n) = Some n.
Proof.
  unfold int_of_str, str_int. rewrite NilZero.isi.
  - simpl. now rewrite DecimalZ.of_to.
  - destruct n; simpl; try discriminate.
    intros [= H]. now apply DecimalPos.Unsigned.to_uint_nonnil in H.
  - destruct n; simpl; try discriminate.
    intros [= H]. now apply DecimalPos.Unsigned.to_uint_nonnil in H.
Qed.

(** C8: every request of [submit_voluntary_exit] is a POST whose JSON
    body holds, under [message], the epoch and the validator index as
    the decimal numerals [str] prints and, under [signature], the
    signature unchanged; the first endpoint, when there is one, is sent
    it at the voluntary-exits path.  Epoch 12345, index 7 and signature
    0xabc give the body of the example. *)
Theorem submit_posts_decimal_strings (T : Transport) (self : ExtendedAsyncBeacon T)
    (epoch validator_index : Z) (signature : string) (w : World T) :
  let body :=
    JObj [("message", JObj [("epoch", JStr (str_int epoch));
                            ("validator_index", JStr (str_int validator_index))]);
          ("signature", JStr signature)] in
  let sent :=
    requests T (trace (submit_voluntary_exit T self epoch validator_index
                         signature w)) in
  Forall (fun r => method r = POST /\ req_json r = Some body) sent /\
  match base_urls self with
  | [] => sent = []
  | u :: _ =>
      hd_error sent =
        Some (mkRequest POST (urljoin T u "/eth/v1/beacon/pool/voluntary_exits")
                None (Some body) FreshSession)
  end /\
  int_of_str (str_int epoch) = Some epoch /\
  int_of_str (str_int validator_index) = Some validator_index /\
  voluntary_exit_data 12345 7 "0xabc" =
    JObj [("message", JObj [("epoch", JStr "12345");
                            ("validator_index", JStr "7")]);
          ("signature", JStr "0xabc")].
Proof.
  intros body sent. split; [|split; [|split; [|split]]].
  - subst sent.
    eapply Forall_impl; [|apply write_requests_shape].
    intros r (Hm & Hj & _). split; assumption.
  - subst sent. unfold submit_voluntary_exit. rewrite post_loop_sweep.
    destruct (base_urls self) as [|u rest]; [reflexivity|].
    destruct (sweep_trace_head T (List.length (u :: rest))
                (post_attempt T (voluntary_exit_data epoch validator_index signature))
                (ret T tt) 0 u rest w) as [t2 Ht].
    rewrite Ht, requests_app, post_attempt_requests. reflexivity.
  - apply int_of_str_str_int.
  - apply int_of_str_str_int.
  - reflexivity.
Qed.

(** ** The status groups *)

Lemma status_in_spec (s : ValidatorStatus) (group : list ValidatorStatus) :
  status_in s group = true <-> In s group.
Proof.
  unfold status_in. destruct (in_dec status_eq_dec s group); split;
    intros; auto; discriminate.
Qed.

(** The nine members carry nine different values. *)
Lemma status_value_inj (a b : ValidatorStatus) :
  status_value a = status_value b -> a = b.
Proof. destruct a, b; simpl; intros H; try reflexivity; discriminate H. Qed.

(** C9: every validator status is in exactly one of [PENDING_STATUSES],
    [ACTIVE_STATUSES] and [EXITED_STATUSES]: it is in one of them, no
    membership test succeeds on two of them, and the three groups, put
    end to end, are the nine members of the enumeration, each once. *)
Theorem statuses_partitioned :
  (forall s, group_count s = 1) /\
  (forall s, In s PENDING_STATUSES \/ In s ACTIVE_STATUSES \/
             In s EXITED_STATUSES) /\
  (forall s, status_in s PENDING_STATUSES && status_in s ACTIVE_STATUSES = false /\
             status_in s PENDING_STATUSES && status_in s EXITED_STATUSES = false /\
             status_in s ACTIVE_STATUSES && status_in s EXITED_STATUSES = false) /\
  PENDING_STATUSES ++ ACTIVE_STATUSES ++ EXITED_STATUSES = all_statuses /\
  (forall s, In s all_statuses) /\
  NoDup all_statuses /\
  List.length all_statuses = 9.
Proof.
  split; [|split; [|split; [|split; [|split; [|split]]]]].
  - intros s. now destruct s.
  - intros s. destruct s; simpl; tauto.
  - intros s. now destruct s.
  - reflexivity.
  - intros s. destruct s; simpl; tauto.
  - repeat constructor; simpl; intuition discriminate.
  - reflexivity.
Qed.

(** * Further properties of the sweep *)

Section SweepRuns.

Context (T : Transport) {A : Type}.
Variables (n : nat) (attempt : string -> M T A) (done : M T A).
Variable req : string -> Req T.
Hypothesis attempt_quiet :
  forall url w, error_records T (trace (attempt url w)) = [].
Hypothesis attempt_requests :
  forall url w, requests T (trace (attempt url w)) = [req url].

(** An attempt that returns, or raises what the handler does not
    catch, is where the sweep ends, wherever it stands in the list. *)
Lemma sweep_final_step i url rest w r w' t :
  attempt url w = (r, w', t) ->
  match r with inl e => recovered T e = false | inr _ => True end ->
  sweep T n attempt done i (url :: rest) w = (r, w', t).
Proof.
  intros E H. destruct r as [e|a].
  - now apply sweep_unrecovered_step.
  - now apply sweep_ok_step.
Qed.

(** Failing endpoints followed by one whose attempt ends the sweep:
    the endpoints behind it are never tried. *)
Lemma sweep_ends_at (err : string -> Error T) pre u rest r w :
  n = List.length (pre ++ u :: rest) ->
  (forall url, In url pre -> fails_with T attempt err url) ->
  (forall w', outcome (attempt u w') = r) ->
  match r with inl e => recovered T e = false | inr _ => True end ->
  let run := sweep T n attempt done 0 (pre ++ u :: rest) w in
  outcome run = r /\
  error_records T (trace run) = map (fun url => error_record T url (err url)) pre /\
  requests T (trace run) = map req (pre ++ [u]).
Proof.
  intros Hn Hf Hu Hr run. subst run.
  destruct (sweep_failing_prefix T n attempt done req attempt_quiet
              attempt_requests err pre (u :: rest) 0 w)
    as (w1 & t1 & Hs & He & Hq1).
  { exact Hf. }
  { rewrite Hn, length_app. simpl. lia. }
  rewrite Hs. change (0 + List.length pre) with (List.length pre).
  specialize (Hu w1).
  pose proof (attempt_quiet u w1) as Hqu.
  pose proof (attempt_requests u w1) as Hru.
  destruct (attempt u w1) as [[r0 w'] t] eqn:E.
  unfold outcome, trace in Hu, Hqu, Hru. simpl in Hu, Hqu, Hru. subst r0.
  rewrite (sweep_final_step _ u rest w1 r w' t E Hr).
  unfold outcome, trace. simpl. split; [reflexivity|split].
  - rewrite error_records_app, He, Hqu. apply app_nil_r.
  - rewrite requests_app, Hq1, Hru. now rewrite map_app.
Qed.

(** Whatever the endpoints do, a sweep that is entered with the rest
    of a non-empty list ends at one of its endpoints: it has that
    attempt's outcome and world, has sent one request to every endpoint
    up to it, in order, and has logged one error record for every
    endpoint before it. *)
Lemma sweep_run_shape urls :
  forall i w,
    urls <> [] ->
    i + List.length urls = n ->
    exists k u wk,
      nth_error urls k = Some u /\
      outcome (sweep T n attempt done i urls w) = outcome (attempt u wk) /\
      final_world (sweep T n attempt done i urls w) = final_world (attempt u wk) /\
      requests T (trace (sweep T n attempt done i urls w)) =
        map req (firstn (S k) urls) /\
      Forall2 (fun url r => exists e, recovered T e = true /\
                                       r = error_record T url e)
        (firstn k urls) (error_records T (trace (sweep T n attempt done i urls w))).
Proof.
  induction urls as [|url rest IH]; intros i w Hne Hi; [congruence|].
  pose proof (attempt_quiet url w) as Hq.
  pose proof (attempt_requests url w) as Hr.
  destruct (attempt url w) as [[r w'] t] eqn:E.
  unfold trace in Hq, Hr. simpl in Hq, Hr.
  assert (Hstop : sweep T n attempt done i (url :: rest) w = (r, w', t) ->
          exists k u wk,
            nth_error (url :: rest) k = Some u /\
            outcome (sweep T n attempt done i (url :: rest) w) = outcome (attempt u wk) /\
            final_world (sweep T n attempt done i (url :: rest) w) =
              final_world (attempt u wk) /\
            requests T (trace (sweep T n attempt done i (url :: rest) w)) =
              map req (firstn (S k) (url :: rest)) /\
            Forall2 (fun url r => exists e, recovered T e = true /\
                                             r = error_record T url e)
              (firstn k (url :: rest))
              (error_records T (trace (sweep T n attempt done i (url :: rest) w)))).
  { intros Hs. exists 0, url, w. rewrite Hs, E.
    unfold outcome, final_world, trace. simpl.
    rewrite Hq, Hr. repeat split; constructor. }
  destruct r as [e|a].
  - destruct (recovered T e) eqn:R.
    + pose proof (sweep_fail_step T n attempt done i url rest w e w' t E R) as Hs.
      destruct rest as [|u2 rest'].
      * replace (Z.of_nat i =? Z.of_nat n - 1)%Z with true in Hs
          by (symmetry; apply Z.eqb_eq; simpl in Hi; lia).
        now apply Hstop.
      * replace (Z.of_nat i =? Z.of_nat n - 1)%Z with false in Hs
          by (symmetry; apply Z.eqb_neq; simpl in Hi; lia).
        destruct (IH (S i) w') as (k & u & wk & Hn & Ho & Hw & Hrq & Hlog).
        { discriminate. }
        { simpl in *. lia. }
        exists (S k), u, wk. rewrite Hs.
        destruct (sweep T n attempt done (S i) (u2 :: rest') w') as [[r2 w2] t2].
        unfold outcome, final_world, trace in *. simpl fst in *. simpl snd in *.
        repeat split; try assumption.
        { rewrite requests_app, Hr. simpl requests. rewrite Hrq. reflexivity. }
        { rewrite error_records_app, Hq. simpl.
          constructor; [exists e; now split | exact Hlog]. }
    + apply Hstop. now apply sweep_unrecovered_step.
  - apply Hstop. now apply sweep_ok_step.
Qed.

End SweepRuns.

(** * Further properties of the client *)

(** ** Where a sweep stops *)

(** X1: the read returns the response of the first endpoint that
    answers, wherever it stands in the list: the endpoints before it,
    which failed recoverably, are each sent one request and logged
    once, and the endpoints behind it are sent nothing. *)
Theorem read_stops_at_first_answer (T : Transport) (self : ExtendedAsyncBeacon T)
    (endpoint_uri : string) (err : string -> Error T)
    (pre : list string) (u : string) (rest : list string)
    (response : Json) (w : World T) :
  base_urls self = pre ++ u :: rest ->
  (forall url, In url pre ->
     fails_with T (get_attempt T self endpoint_uri) err url) ->
  (forall w', outcome (get_attempt T self endpoint_uri u w') = inr response) ->
  let run := _async_make_get_request T self endpoint_uri w in
  outcome run = inr response /\
  error_records T (trace run) =
    map (fun url => error_record T url (err url)) pre /\
  requests T (trace run) = map (get_request T self endpoint_uri) (pre ++ [u]).
Proof.
  intros Heq Hf Hok run. subst run.
  unfold _async_make_get_request. rewrite get_loop_sweep. rewrite Heq.
  apply (sweep_ends_at T _ (get_attempt T self endpoint_uri) (ret T (JObj []))
           (get_request T self endpoint_uri)
           (get_attempt_quiet T self endpoint_uri)
           (get_attempt_requests T self endpoint_uri)
           err pre u rest (inr response) w eq_refl Hf Hok I).
Qed.

Lemma read_stops_at_first_answer_witness :
  outcome (get_validators_by_ids (staged ["http://b"] [] [])
             (get_consensus_client (staged ["http://b"] [] [])
                ["http://a"; "http://b"; "http://c"] 60 None)
             ["100"; "200"] "head" 0) = inr (JObj [("data", JArr [])]) /\
  map uri
    (requests (staged ["http://b"] [] [])
       (trace (get_validators_by_ids (staged ["http://b"] [] [])
                 (get_consensus_client (staged ["http://b"] [] [])
                    ["http://a"; "http://b"; "http://c"] 60 None)
                 ["100"; "200"] "head" 0))) =
    ["http://a/eth/v1/beacon/states/head/validators?id=100&id=200";
     "http://b/eth/v1/beacon/states/head/validators?id=100&id=200"].
Proof.
  refine (let H := read_stops_at_first_answer (staged ["http://b"] [] [])
            (get_consensus_client (staged ["http://b"] [] [])
               ["http://a"; "http://b"; "http://c"] 60 None)
            "/eth/v1/beacon/states/head/validators?id=100&id=200"
            (fun url => ("ClientConnectorError " ++ url ++
               "/eth/v1/beacon/states/head/validators?id=100&id=200")%string)
            ["http://a"] "http://b" ["http://c"] (JObj [("data", JArr [])]) 0
            eq_refl _ _ in
          conj (proj1 H) (f_equal (map uri) (proj2 (proj2 H)))).
  - intros url [<-|[]]; split; intros; reflexivity.
  - intros w'. reflexivity.
Defined.

(** X2: [submit_voluntary_exit] returns [None] at the first endpoint
    that accepts the message: the endpoints before it, which failed
    recoverably, are each posted to once and logged once, and the
    endpoints behind it are never posted to. *)
Theorem submit_stops_at_first_success (T : Transport) (self : ExtendedAsyncBeacon T)
    (epoch validator_index : Z) (signature : string) (err : string -> Error T)
    (pre : list string) (u : string) (rest : list string) (w : World T) :
  let data := voluntary_exit_data epoch validator_index signature in
  base_urls self = pre ++ u :: rest ->
  (forall url, In url pre -> fails_with T (post_attempt T data) err url) ->
  (forall w', outcome (post_attempt T data u w') = inr tt) ->
  let run := submit_voluntary_exit T self epoch validator_index signature w in
  outcome run = inr tt /\
  error_records T (trace run) =
    map (fun url => error_record T url (err url)) pre /\
  requests T (trace run) =
    map (fun url => post_request T data (urljoin T url GET_VOLUNTARY_EXITS))
      (pre ++ [u]).
Proof.
  intros data Heq Hf Hok run. subst run.
  unfold submit_voluntary_exit. rewrite post_loop_sweep. rewrite Heq.
  apply (sweep_ends_at T _ (post_attempt T data) (ret T tt)
           (fun url => post_request T data (urljoin T url GET_VOLUNTARY_EXITS))
           (post_attempt_quiet T data) (post_attempt_requests T data)
           err pre u rest (inr tt) w eq_refl Hf Hok I).
Qed.

Lemma submit_stops_at_first_success_witness :
  outcome (submit_voluntary_exit (staged ["http://b"] [] [])
             (get_consensus_client (staged ["http://b"] [] [])
                ["http://a"; "http://b"; "http://c"] 60 None)
             12345 7 "0xabc" 0) = inr tt /\
  map uri
    (requests (staged ["http://b"] [] [])
       (trace (submit_voluntary_exit (staged ["http://b"] [] [])
                 (get_consensus_client (staged ["http://b"] [] [])
                    ["http://a"; "http://b"; "http://c"] 60 None)
                 12345 7 "0xabc" 0))) =
    ["http://a/eth/v1/beacon/pool/voluntary_exits";
     "http://b/eth/v1/beacon/pool/voluntary_exits"].
Proof.
  refine (let H := submit_stops_at_first_success (staged ["http://b"] [] [])
            (get_consensus_client (staged ["http://b"] [] [])
               ["http://a"; "http://b"; "http://c"] 60 None)
            12345 7 "0xabc"
            (fun url => ("ClientConnectorError " ++ url ++
               "/eth/v1/beacon/pool/voluntary_exits")%string)
            ["http://a"] "http://b" ["http://c"] 0 eq_refl _ _ in
          conj (proj1 H) (f_equal (map uri) (proj2 (proj2 H)))).
  - intros url [<-|[]]; split; intros; reflexivity.
  - intros w'. reflexivity.
Defined.

(** X3: on a non-empty endpoint list whose every endpoint fails
    recoverably, [submit_voluntary_exit] raises the error of the last
    endpoint, having posted the same message once to every endpoint in
    order and logged every failure but the last. *)
Theorem submit_raises_last_error (T : Transport) (self : ExtendedAsyncBeacon T)
    (epoch validator_index : Z) (signature : string) (err : string -> Error T)
    (pre : list string) (u : string) (w : World T) :
  let data := voluntary_exit_data epoch validator_index signature in
  base_urls self = pre ++ [u] ->
  (forall url, In url (pre ++ [u]) -> fails_with T (post_attempt T data) err url) ->
  let run := submit_voluntary_exit T self epoch validator_index signature w in
  outcome run = inl (err u) /\
  error_records T (trace run) =
    map (fun url => error_record T url (err url)) pre /\
  requests T (trace run) =
    map (fun url => post_request T data (urljoin T url GET_VOLUNTARY_EXITS))
      (pre ++ [u]).
Proof.
  intros data Heq Hf run. subst run.
  unfold submit_voluntary_exit. rewrite post_loop_sweep. rewrite Heq.
  apply (sweep_all_fail T (post_attempt T data) (ret T tt)
           (fun url => post_request T data (urljoin T url GET_VOLUNTARY_EXITS))
           err pre u w).
  - intros. apply post_attempt_quiet.
  - intros. apply post_attempt_requests.
  - exact Hf.
Qed.

Lemma submit_raises_last_error_witness :
  outcome (submit_voluntary_exit (scripted [])
             (get_consensus_client (scripted []) ["http://a"; "http://b"] 60 None)
             12345 7 "0xabc" 0) =
    inl "ClientConnectorError http://b/eth/v1/beacon/pool/voluntary_exits" /\
  error_records (scripted [])
    (trace (submit_voluntary_exit (scripted [])
              (get_consensus_client (scripted []) ["http://a"; "http://b"] 60 None)
              12345 7 "0xabc" 0)) =
    [mkLog ERROR "%s: %s"
       ["http://a";
        "ClientConnectorError http://a/eth/v1/beacon/pool/voluntary_exits"]].
Proof.
  refine (let H := submit_raises_last_error (scripted [])
            (get_consensus_client (scripted []) ["http://a"; "http://b"] 60 None)
            12345 7 "0xabc"
            (fun url => ("ClientConnectorError " ++ url ++
               "/eth/v1/beacon/pool/voluntary_exits")%string)
            ["http://a"] "http://b" 0 eq_refl _ in
          conj (proj1 H) (proj1 (proj2 H))).
  intros url [<-|[<-|[]]]; split; intros; reflexivity.
Defined.

(** X4: an exception of the read that is not among
    [AiohttpRecoveredErrors] is raised to the caller at once, at
    whatever index it occurs: it is not logged and no endpoint behind
    it is tried. *)
Theorem read_other_exception_propagates (T : Transport)
    (self : ExtendedAsyncBeacon T) (endpoint_uri : string)
    (err : string -> Error T) (pre : list string) (u : string)
    (rest : list string) (e : Error T) (w : World T) :
  base_urls self = pre ++ u :: rest ->
  (forall url, In url pre ->
     fails_with T (get_attempt T self endpoint_uri) err url) ->
  recovered T e = false ->
  (forall w', outcome (get_attempt T self endpoint_uri u w') = inl e) ->
  let run := _async_make_get_request T self endpoint_uri w in
  outcome run = inl e /\
  error_records T (trace run) =
    map (fun url => error_record T url (err url)) pre /\
  requests T (trace run) = map (get_request T self endpoint_uri) (pre ++ [u]).
Proof.
  intros Heq Hf R Hu run. subst run.
  unfold _async_make_get_request. rewrite get_loop_sweep. rewrite Heq.
  apply (sweep_ends_at T _ (get_attempt T self endpoint_uri) (ret T (JObj []))
           (get_request T self endpoint_uri)
           (get_attempt_quiet T self endpoint_uri)
           (get_attempt_requests T self endpoint_uri)
           err pre u rest (inl e) w eq_refl Hf Hu R).
Qed.

Lemma read_other_exception_propagates_witness :
  outcome (get_validators_by_ids (staged ["http://c"] [] ["http://b"])
             (get_consensus_client (staged ["http://c"] [] ["http://b"])
                ["http://a"; "http://b"; "http://c"] 60 None)
             ["100"; "200"] "head" 0) = inl "InvalidURL" /\
  map uri
    (requests (staged ["http://c"] [] ["http://b"])
       (trace (get_validators_by_ids (staged ["http://c"] [] ["http://b"])
                 (get_consensus_client (staged ["http://c"] [] ["http://b"])
                    ["http://a"; "http://b"; "http://c"] 60 None)
                 ["100"; "200"] "head" 0))) =
    ["http://a/eth/v1/beacon/states/head/validators?id=100&id=200";
     "http://b/eth/v1/beacon/states/head/validators?id=100&id=200"].
Proof.
  refine (let H := read_other_exception_propagates
            (staged ["http://c"] [] ["http://b"])
            (get_consensus_client (staged ["http://c"] [] ["http://b"])
               ["http://a"; "http://b"; "http://c"] 60 None)
            "/eth/v1/beacon/states/head/validators?id=100&id=200"
            (fun url => ("ClientConnectorError " ++ url ++
               "/eth/v1/beacon/states/head/validators?id=100&id=200")%string)
            ["http://a"] "http://b" ["http://c"] "InvalidURL" 0
            eq_refl _ eq_refl _ in
          conj (proj1 H) (f_equal (map uri) (proj2 (proj2 H)))).
  - intros url [<-|[]]; split; intros; reflexivity.
  - intros w'. reflexivity.
Defined.

(** X5: an exception of the write that is not among
    [AiohttpRecoveredErrors] is raised to the caller at once, at
    whatever index it occurs: it is not logged and no endpoint behind
    it is posted to. *)
Theorem submit_other_exception_propagates (T : Transport)
    (self : ExtendedAsyncBeacon T) (epoch validator_index : Z)
    (signature : string) (err : string -> Error T) (pre : list string)
    (u : string) (rest : list string) (e : Error T) (w : World T) :
  let data := voluntary_exit_data epoch validator_index signature in
  base_urls self = pre ++ u :: rest ->
  (forall url, In url pre -> fails_with T (post_attempt T data) err url) ->
  recovered T e = false ->
  (forall w', outcome (post_attempt T data u w') = inl e) ->
  let run := submit_voluntary_exit T self epoch validator_index signature w in
  outcome run = inl e /\
  error_records T (trace run) =
    map (fun url => error_record T url (err url)) pre /\
  requests T (trace run) =
    map (fun url => post_request T data (urljoin T url GET_VOLUNTARY_EXITS))
      (pre ++ [u]).
Proof.
  intros data Heq Hf R Hu run. subst run.
  unfold submit_voluntary_exit. rewrite post_loop_sweep. rewrite Heq.
  apply (sweep_ends_at T _ (post_attempt T data) (ret T tt)
           (fun url => post_request T data (urljoin T url GET_VOLUNTARY_EXITS))
           (post_attempt_quiet T data) (post_attempt_requests T data)
           err pre u rest (inl e) w eq_refl Hf Hu R).
Qed.

Lemma submit_other_exception_propagates_witness :
  outcome (submit_voluntary_exit (staged ["http://c"] [] ["http://b"])
             (get_consensus_client (staged ["http://c"] [] ["http://b"])
                ["http://a"; "http://b"; "http://c"] 60 None)
             12345 7 "0xabc" 0) = inl "InvalidURL" /\
  map uri
    (requests (staged ["http://c"] [] ["http://b"])
       (trace (submit_voluntary_exit (staged ["http://c"] [] ["http://b"])
                 (get_consensus_client (staged ["http://c"] [] ["http://b"])
                    ["http://a"; "http://b"; "http://c"] 60 None)
                 12345 7 "0xabc" 0))) =
    ["http://a/eth/v1/beacon/pool/voluntary_exits";
     "http://b/eth/v1/beacon/pool/voluntary_exits"].
Proof.
  refine (let H := submit_other_exception_propagates
            (staged ["http://c"] [] ["http://b"])
            (get_consensus_client (staged ["http://c"] [] ["http://b"])
               ["http://a"; "http://b"; "http://c"] 60 None)
            12345 7 "0xabc"
            (fun url => ("ClientConnectorError " ++ url ++
               "/eth/v1/beacon/pool/voluntary_exits")%string)
            ["http://a"] "http://b" ["http://c"] "InvalidURL" 0
            eq_refl _ eq_refl _ in
          conj (proj1 H) (f_equal (map uri) (proj2 (proj2 H)))).
  - intros url [<-|[]]; split; intros; reflexivity.
  - intros w'. reflexivity.
Defined.

(** ** The shape of every run *)

(** X6: whatever the endpoints do, a read on a non-empty endpoint list
    ends at one of its endpoints: its outcome and final world are those
    of the attempt on that endpoint, every endpoint up to it has been
    sent exactly one request, in list order, no endpoint behind it has
    been sent any, and the error records are one per endpoint before
    it, in order, each for a recoverable error. *)
Theorem read_contacts_prefix_in_order (T : Transport)
    (self : ExtendedAsyncBeacon T) (endpoint_uri : string) (w : World T) :
  base_urls self <> [] ->
  let run := _async_make_get_request T self endpoint_uri w in
  exists k u wk,
    nth_error (base_urls self) k = Some u /\
    outcome run = outcome (get_attempt T self endpoint_uri u wk) /\
    final_world run = final_world (get_attempt T self endpoint_uri u wk) /\
    requests T (trace run) =
      map (get_request T self endpoint_uri) (firstn (S k) (base_urls self)) /\
    Forall2 (fun url r => exists e, recovered T e = true /\
                                     r = error_record T url e)
      (firstn k (base_urls self)) (error_records T (trace run)).
Proof.
  intros Hne run. subst run. unfold _async_make_get_request.
  rewrite get_loop_sweep.
  apply (sweep_run_shape T _ (get_attempt T self endpoint_uri) (ret T (JObj []))
           (get_request T self endpoint_uri)
           (get_attempt_quiet T self endpoint_uri)
           (get_attempt_requests T self endpoint_uri)
           (base_urls self) 0 w Hne eq_refl).
Qed.

Lemma read_contacts_prefix_in_order_witness :
  exists k u wk,
    nth_error ["http://a"; "http://b"; "http://c"] k = Some u /\
    outcome (get_validators_by_ids (staged ["http://b"] [] [])
               (get_consensus_client (staged ["http://b"] [] [])
                  ["http://a"; "http://b"; "http://c"] 60 None)
               ["100"; "200"] "head" 0) =
    outcome (get_attempt (staged ["http://b"] [] [])
               (get_consensus_client (staged ["http://b"] [] [])
                  ["http://a"; "http://b"; "http://c"] 60 None)
               "/eth/v1/beacon/states/head/validators?id=100&id=200" u wk).
Proof.
  destruct (read_contacts_prefix_in_order (staged ["http://b"] [] [])
              (get_consensus_client (staged ["http://b"] [] [])
                 ["http://a"; "http://b"; "http://c"] 60 None)
              "/eth/v1/beacon/states/head/validators?id=100&id=200" 0)
    as (k & u & wk & Hn & Ho & _).
  - discriminate.
  - exists k, u, wk. split; assumption.
Defined.

(** X7: whatever the endpoints do, a submission on a non-empty endpoint
    list ends at one of its endpoints: its outcome and final world are
    those of the attempt on that endpoint, every endpoint up to it has
    been posted the message exactly once, in list order, no endpoint
    behind it has been posted to, and the error records are one per
    endpoint before it, in order, each for a recoverable error. *)
Theorem submit_contacts_prefix_in_order (T : Transport)
    (self : ExtendedAsyncBeacon T) (epoch validator_index : Z)
    (signature : string) (w : World T) :
  base_urls self <> [] ->
  let data := voluntary_exit_data epoch validator_index signature in
  let run := submit_voluntary_exit T self epoch validator_index signature w in
  exists k u wk,
    nth_error (base_urls self) k = Some u /\
    outcome run = outcome (post_attempt T data u wk) /\
    final_world run = final_world (post_attempt T data u wk) /\
    requests T (trace run) =
      map (fun url => post_request T data (urljoin T url GET_VOLUNTARY_EXITS))
        (firstn (S k) (base_urls self)) /\
    Forall2 (fun url r => exists e, recovered T e = true /\
                                     r = error_record T url e)
      (firstn k (base_urls self)) (error_records T (trace run)).
Proof.
  intros Hne data run. subst run. unfold submit_voluntary_exit.
  rewrite post_loop_sweep.
  apply (sweep_run_shape T _ (post_attempt T data) (ret T tt)
           (fun url => post_request T data (urljoin T url GET_VOLUNTARY_EXITS))
           (post_attempt_quiet T data) (post_attempt_requests T data)
           (base_urls self) 0 w Hne eq_refl).
Qed.

Lemma submit_contacts_prefix_in_order_witness :
  exists k u wk,
    nth_error ["http://a"; "http://b"; "http://c"] k = Some u /\
    outcome (submit_voluntary_exit (staged ["http://b"] [] [])
               (get_consensus_client (staged ["http://b"] [] [])
                  ["http://a"; "http://b"; "http://c"] 60 None)
               12345 7 "0xabc" 0) =
    outcome (post_attempt (staged ["http://b"] [] [])
               (voluntary_exit_data 12345 7 "0xabc") u wk).
Proof.
  destruct (submit_contacts_prefix_in_order (staged ["http://b"] [] [])
              (get_consensus_client (staged ["http://b"] [] [])
                 ["http://a"; "http://b"; "http://c"] 60 None)
              12345 7 "0xabc" 0)
    as (k & u & wk & Hn & Ho & _).
  - discriminate.
  - exists k, u, wk. split; assumption.
Defined.

(** X10: with exactly one endpoint configured the loops add nothing:
    each operation is the single attempt on that endpoint, with its
    outcome (response, recoverable error or any other exception), its
    world and its events, and nothing is logged at error level. *)
Theorem single_endpoint_is_transparent (T : Transport)
    (self : ExtendedAsyncBeacon T) (u endpoint_uri : string)
    (epoch validator_index : Z) (signature : string) (w : World T) :
  base_urls self = [u] ->
  _async_make_get_request T self endpoint_uri w =
    get_attempt T self endpoint_uri u w /\
  submit_voluntary_exit T self epoch validator_index signature w =
    post_attempt T (voluntary_exit_data epoch validator_index signature) u w /\
  error_records T (trace (_async_make_get_request T self endpoint_uri w)) = [] /\
  error_records T (trace (submit_voluntary_exit T self epoch validator_index
                            signature w)) = [].
Proof.
  intros Heq.
  assert (Hone : forall {A} (attempt : string -> M T A) (done : M T A),
            sweep T 1 attempt done 0 [u] w = attempt u w).
  { intros A attempt done.
    destruct (attempt u w) as [[[e|a] w'] t] eqn:E.
    - destruct (recovered T e) eqn:R.
      + now rewrite (sweep_fail_step T 1 attempt done 0 u [] w e w' t E R).
      + now apply sweep_unrecovered_step.
    - now apply sweep_ok_step. }
  assert (Hget : _async_make_get_request T self endpoint_uri w =
                 get_attempt T self endpoint_uri u w).
  { unfold _async_make_get_request. rewrite get_loop_sweep, Heq. apply Hone. }
  assert (Hpost : submit_voluntary_exit T self epoch validator_index signature w =
                  post_attempt T (voluntary_exit_data epoch validator_index
                                    signature) u w).
  { unfold submit_voluntary_exit. rewrite post_loop_sweep, Heq. apply Hone. }
  repeat split; try assumption.
  - rewrite Hget. apply get_attempt_quiet.
  - rewrite Hpost. apply post_attempt_quiet.
Qed.

Lemma single_endpoint_is_transparent_witness :
  get_validators_by_ids (staged [] ["http://a"] [])
    (get_consensus_client (staged [] ["http://a"] []) ["http://a"] 60 (Some tt))
    ["100"; "200"] "head" 0 =
  get_attempt (staged [] ["http://a"] [])
    (get_consensus_client (staged [] ["http://a"] []) ["http://a"] 60 (Some tt))
    "/eth/v1/beacon/states/head/validators?id=100&id=200" "http://a" 0.
Proof.
  exact (proj1 (single_endpoint_is_transparent (staged [] ["http://a"] [])
                  (get_consensus_client (staged [] ["http://a"] [])
                     ["http://a"] 60 (Some tt))
                  "http://a"
                  "/eth/v1/beacon/states/head/validators?id=100&id=200"
                  12345 7 "0xabc" 0 eq_refl)).
Defined.

(** ** What a request carries *)

(** X8: [submit_voluntary_exit] consults neither the timeout nor the
    session the client was built with: two clients over the same
    endpoint list submit in exactly the same way, whatever their
    timeouts and sessions. *)
Theorem submit_ignores_timeout_and_session (T : Transport)
    (endpoints : list string) (timeout1 timeout2 : Z)
    (session1 session2 : option (Session T))
    (epoch validator_index : Z) (signature : string) (w : World T) :
  submit_voluntary_exit T (get_consensus_client T endpoints timeout1 session1)
    epoch validator_index signature w =
  submit_voluntary_exit T (get_consensus_client T endpoints timeout2 session2)
    epoch validator_index signature w.
Proof.
  unfold submit_voluntary_exit. now rewrite !post_loop_sweep.
Qed.

(** X9: every request of the read is a GET without a body, carries the
    client's timeout, and goes through the shared session when the
    client has one and through web3's helper when it has none; the
    read never opens a session of its own. *)
Theorem read_requests_use_configured_channel (T : Transport)
    (self : ExtendedAsyncBeacon T) (endpoint_uri : string) (w : World T) :
  Forall (fun r => method r = GET /\
                   req_json r = None /\
                   req_timeout r = Some (timeout self) /\
                   channel r = match session self with
                               | Some s => SharedSession s
                               | None => Web3Helper
                               end)
    (requests T (trace (_async_make_get_request T self endpoint_uri w))).
Proof.
  unfold _async_make_get_request. rewrite get_loop_sweep.
  apply sweep_requests_Forall.
  - intros url w0. rewrite get_attempt_requests.
    constructor; [|constructor].
    unfold get_request, web3_request. now destruct (session self).
  - intros w0. constructor.
Qed.

(** ** The validators query *)

Lemma append_empty_r (a : string) : (a ++ "")%string = a.
Proof. induction a as [|c a IH]; simpl; [reflexivity|now rewrite IH]. Qed.

(** [join] puts the separator in front of every part but the first. *)
Lemma join_cons (sep a : string) (l : list string) :
  join sep (a :: l) =
    (a ++ fold_right (fun x acc => sep ++ x ++ acc) "" l)%string.
Proof.
  revert a. induction l as [|b l IH]; intros a.
  - simpl. now rewrite append_empty_r.
  - change (join sep (a :: b :: l)) with (a ++ sep ++ join sep (b :: l))%string.
    now rewrite IH.
Qed.

(** X11: every request of [get_validators_by_ids] asks some base url,
    joined by [urljoin], for the validators of the given state with a
    query that names the first identifier as [?id=] and every further
    one as [&id=], in the order given; with no identifier at all the
    query is the bare [?id=]. *)
Theorem validators_query_repeats_id (T : Transport)
    (self : ExtendedAsyncBeacon T) (validator_ids : list string)
    (state_id : string) (w : World T) :
  Forall (fun r =>
            exists u,
              uri r =
                urljoin T u
                  ("/eth/v1/beacon/states/" ++ state_id ++ "/validators?id=" ++
                   match validator_ids with
                   | [] => ""
                   | a :: l =>
                       a ++ fold_right (fun x acc => "&id=" ++ x ++ acc) "" l
                   end)%string)
    (requests T (trace (get_validators_by_ids T self validator_ids state_id w))).
Proof.
  unfold get_validators_by_ids, _async_make_get_request.
  rewrite get_loop_sweep.
  apply sweep_requests_Forall.
  - intros url w0. rewrite get_attempt_requests.
    constructor; [|constructor].
    exists url.
    assert (Hq : join "&id=" validator_ids =
                 match validator_ids with
                 | [] => ""
                 | a :: l =>
                     (a ++ fold_right (fun x acc => "&id=" ++ x ++ acc) "" l)%string
                 end).
    { destruct validator_ids as [|a l]; [reflexivity|apply join_cons]. }
    rewrite <- Hq.
    unfold get_request, web3_request, GET_VALIDATORS.
    destruct (session self); reflexivity.
  - intros w0. constructor.
Qed.

(** ** The exit message, read back *)

(** X12: the body of the exit message determines the message: two
    submissions with the same body have the same epoch, the same
    validator index and the same signature. *)
Theorem voluntary_exit_data_inj (epoch validator_index : Z) (signature : string)
    (epoch' validator_index' : Z) (signature' : string) :
  voluntary_exit_data epoch validator_index signature =
    voluntary_exit_data epoch' validator_index' signature' ->
  epoch = epoch' /\ validator_index = validator_index' /\ signature = signature'.
Proof.
  unfold voluntary_exit_data. intros [= He Hv Hs].
  pose proof (int_of_str_str_int epoch) as H1. rewrite He in H1.
  pose proof (int_of_str_str_int validator_index) as H2. rewrite Hv in H2.
  rewrite int_of_str_str_int in H1, H2.
  injection H1 as H1. injection H2 as H2. subst. auto.
Qed.

Lemma voluntary_exit_data_inj_witness :
  (12345 = 12340 + 5 /\ 7 = 3 + 4 /\ "0xabc" = "0xabc")%Z.
Proof.
  exact (voluntary_exit_data_inj 12345 7 "0xabc" (12340 + 5) (3 + 4) "0xabc"
           eq_refl).
Defined.

(** ** Status values *)

(** X13: the value of a status names its group: the pending statuses
    are the ones whose value starts with [pending_], the active ones
    start with [active_], the exited ones with [exited_] or
    [withdrawal_]; and the nine values are pairwise different. *)
Theorem status_value_names_group :
  (forall s,
     status_in s PENDING_STATUSES = prefix "pending_" (status_value s) /\
     status_in s ACTIVE_STATUSES = prefix "active_" (status_value s) /\
     status_in s EXITED_STATUSES =
       (prefix "exited_" (status_value s) ||
        prefix "withdrawal_" (status_value s))) /\
  NoDup (map status_value all_statuses).
Proof.
  split.
  - intros s. now destruct s.
  - repeat constructor; simpl; intuition discriminate.
Qed.

(** ** An HTTP error status *)

(** X14: a response with an error status counts as a failure of the
    attempt: when the first endpoint answers the POST with a response
    on which [raise_for_status] raises a recoverable error, the error
    is logged with that endpoint and the same message is posted to the
    second endpoint, from the world the first answer left; the
    submission then ends as the rest of the loop does. *)
Theorem submit_status_error_fails_over (T : Transport)
    (self : ExtendedAsyncBeacon T) (epoch validator_index : Z)
    (signature : string) (u1 u2 : string) (rest : list string)
    (w w1 : World T) (response : Response T) (e : Error T) :
  let data := voluntary_exit_data epoch validator_index signature in
  base_urls self = u1 :: u2 :: rest ->
  perform T (post_request T data (urljoin T u1 GET_VOLUNTARY_EXITS)) w =
    (inr response, w1) ->
  raise_for_status T response = Some e ->
  recovered T e = true ->
  let run := submit_voluntary_exit T self epoch validator_index signature w in
  let next := post_loop T self data 1 (u2 :: rest) w1 in
  outcome run = outcome next /\
  final_world run = final_world next /\
  exists t2,
    trace run =
      Issued (post_request T data (urljoin T u1 GET_VOLUNTARY_EXITS))
      :: Logged (error_record T u1 e)
      :: Issued (post_request T data (urljoin T u2 GET_VOLUNTARY_EXITS))
      :: t2.
Proof.
  intros data Heq Hp Hs R run next. subst run next.
  unfold submit_voluntary_exit. fold data.
  rewrite !post_loop_sweep. rewrite Heq.
  assert (E : post_attempt T data u1 w =
              (inl e, w1,
               [Issued (post_request T data (urljoin T u1 GET_VOLUNTARY_EXITS))])).
  { unfold post_attempt, send, do_raise_for_status, bind, emit, call. simpl.
    rewrite Hp. simpl. rewrite Hs. reflexivity. }
  rewrite (sweep_fail_step T _ (post_attempt T data) (ret T tt) 0 u1
             (u2 :: rest) w e w1 _ E R).
  replace (Z.of_nat 0 =? Z.of_nat (List.length (u1 :: u2 :: rest)) - 1)%Z
    with false by (symmetry; apply Z.eqb_neq; simpl List.length; lia).
  destruct (sweep_trace_head T (List.length (u1 :: u2 :: rest))
              (post_attempt T data) (ret T tt) 1 u2 rest w1) as [t2 Ht].
  rewrite post_attempt_trace in Ht.
  destruct (sweep T (List.length (u1 :: u2 :: rest)) (post_attempt T data)
              (ret T tt) 1 (u2 :: rest) w1) as [[r w2] t] eqn:Es.
  unfold outcome, final_world, trace in *. simpl in Ht. simpl.
  repeat split. exists t2. now rewrite Ht.
Qed.

Lemma submit_status_error_fails_over_witness :
  outcome (submit_voluntary_exit (staged ["http://b"] ["http://a"] [])
             (get_consensus_client (staged ["http://b"] ["http://a"] [])
                ["http://a"; "http://b"] 60 None)
             12345 7 "0xabc" 0) = inr tt /\
  error_records (staged ["http://b"] ["http://a"] [])
    (trace (submit_voluntary_exit (staged ["http://b"] ["http://a"] [])
              (get_consensus_client (staged ["http://b"] ["http://a"] [])
                 ["http://a"; "http://b"] 60 None)
              12345 7 "0xabc" 0)) =
    [mkLog ERROR "%s: %s" ["http://a"; "ClientResponseError"]].
Proof.
  pose proof (submit_status_error_fails_over
                (staged ["http://b"] ["http://a"] [])
                (get_consensus_client (staged ["http://b"] ["http://a"] [])
                   ["http://a"; "http://b"] 60 None)
                12345 7 "0xabc" "http://a" "http://b" [] 0 1
                (400%Z, JNull) "ClientResponseError"
                eq_refl eq_refl eq_refl eq_refl) as H.
  split; [exact (proj1 H)|reflexivity].
Defined.

(** ** The shared session *)

Lemma debug_records_app (T : Transport) (t1 t2 : list (Ev T)) :
  debug_records T (t1 ++ t2) = debug_records T t1 ++ debug_records T t2.
Proof.
  induction t1 as [|[r|r] t1 IH]; simpl; auto.
  destruct (levelname r); simpl; now rewrite IH.
Qed.

(** A relation between the debug records and the requests of every
    attempt carries over to the sweep, which logs at error level only. *)
Lemma sweep_debug_records (T : Transport) {A : Type} (n : nat)
    (attempt : string -> M T A) (done : M T A)
    (g : Req T -> list LogRecord) :
  (forall url w, debug_records T (trace (attempt url w)) =
                 flat_map g (requests T (trace (attempt url w)))) ->
  (forall w, debug_records T (trace (done w)) =
             flat_map g (requests T (trace (done w)))) ->
  forall urls i w,
    debug_records T (trace (sweep T n attempt done i urls w)) =
    flat_map g (requests T (trace (sweep T n attempt done i urls w))).
Proof.
  intros Ha Hd urls. induction urls as [|url rest IH]; intros i w.
  - apply Hd.
  - specialize (Ha url w).
    destruct (attempt url w) as [[[e|a] w'] t] eqn:E.
    + destruct (recovered T e) eqn:R.
      * rewrite (sweep_fail_step T n attempt done i url rest w e w' t E R).
        destruct (Z.of_nat i =? Z.of_nat n - 1)%Z; [exact Ha|].
        specialize (IH (S i) w').
        destruct (sweep T n attempt done (S i) rest w') as [[r w2] t2].
        unfold trace in *. simpl in *.
        rewrite debug_records_app, requests_app, flat_map_app. simpl.
        now rewrite Ha, IH.
      * now rewrite (sweep_unrecovered_step T n attempt done i url rest w e w' t E R).
    + now rewrite (sweep_ok_step T n attempt done i url rest w a w' t E).
Qed.

(** X15: a client with a shared session logs every GET at debug level:
    in any run of the read the debug records are one [GET %s] record
    per request issued, in order, each with the uri of its request; a
    client without a session logs nothing at debug level. *)
Theorem read_logs_each_get_at_debug (T : Transport)
    (self : ExtendedAsyncBeacon T) (endpoint_uri : string) (w : World T) :
  debug_records T (trace (_async_make_get_request T self endpoint_uri w)) =
    match session self with
    | Some _ =>
        map (fun r => mkLog DEBUG "GET %s" [uri r])
          (requests T (trace (_async_make_get_request T self endpoint_uri w)))
    | None => []
    end.
Proof.
  unfold _async_make_get_request. rewrite get_loop_sweep.
  set (g := fun r : Req T =>
              match session self with
              | Some _ => [mkLog DEBUG "GET %s" [uri r]]
              | None => []
              end).
  rewrite (sweep_debug_records T _ (get_attempt T self endpoint_uri)
             (ret T (JObj [])) g).
  - subst g. destruct (session self).
    + induction (requests T _) as [|r l IH]; simpl; [reflexivity|now rewrite IH].
    + induction (requests T _) as [|r l IH]; simpl; [reflexivity|exact IH].
  - intros url w0. subst g.
    unfold get_attempt, _make_session_get_request, send,
      do_raise_for_status, bind, emit, call, ret, raise, trace, logger_debug.
    destruct (session self) as [s|]; simpl.
    + destruct (perform T _ w0) as [[e|resp] w1]; simpl; [reflexivity|].
      destruct (raise_for_status T resp); simpl; [reflexivity|].
      destruct (response_json T resp w1) as [[e|d] w2]; reflexivity.
    + destruct (async_json_make_get_request T _ w0) as [r w1]; reflexivity.
  - intros w0. reflexivity.
Qed.

(** X16: on the shared session a body that does not decode counts as a
    failure of the attempt: when the first endpoint answers with a good
    status but decoding its body raises a recoverable error, the error
    is logged with that endpoint and the second endpoint is asked, from
    the world the decoding left; the read then ends as the rest of the
    loop does. *)
Theorem read_bad_body_fails_over (T : Transport)
    (self : ExtendedAsyncBeacon T) (s : Session T) (endpoint_uri : string)
    (u1 u2 : string) (rest : list string) (w w1 w2 : World T)
    (response : Response T) (e : Error T) :
  session self = Some s ->
  base_urls self = u1 :: u2 :: rest ->
  perform T (get_request T self endpoint_uri u1) w = (inr response, w1) ->
  raise_for_status T response = None ->
  response_json T response w1 = (inl e, w2) ->
  recovered T e = true ->
  let run := _async_make_get_request T self endpoint_uri w in
  let next := get_loop T self endpoint_uri 1 (u2 :: rest) w2 in
  outcome run = outcome next /\
  final_world run = final_world next /\
  exists t2,
    trace run =
      Logged (mkLog DEBUG "GET %s" [urljoin T u1 endpoint_uri])
      :: Issued (get_request T self endpoint_uri u1)
      :: Logged (error_record T u1 e)
      :: Logged (mkLog DEBUG "GET %s" [urljoin T u2 endpoint_uri])
      :: Issued (get_request T self endpoint_uri u2)
      :: t2.
Proof.
  intros Hsess Heq Hp Hs Hj R run next. subst run next.
  unfold _async_make_get_request. rewrite !get_loop_sweep. rewrite Heq.
  assert (Hreq : forall u, get_request T self endpoint_uri u =
                   mkRequest GET (urljoin T u endpoint_uri)
                     (Some (timeout self)) None (SharedSession s)).
  { intros u. unfold get_request. now rewrite Hsess. }
  assert (Hhead : forall u w0, exists t,
            trace (get_attempt T self endpoint_uri u w0) =
              Logged (mkLog DEBUG "GET %s" [urljoin T u endpoint_uri])
              :: Issued (get_request T self endpoint_uri u) :: t).
  { intros u w0. rewrite Hreq.
    unfold get_attempt, _make_session_get_request, send,
      do_raise_for_status, bind, emit, call, ret, raise, trace, logger_debug.
    rewrite Hsess. simpl.
    destruct (perform T _ w0) as [[e0|resp] w3]; simpl; [now exists []|].
    destruct (raise_for_status T resp); simpl; [now exists []|].
    destruct (response_json T resp w3) as [[e0|d] w4]; now exists []. }
  assert (E : get_attempt T self endpoint_uri u1 w =
              (inl e, w2,
               [Logged (mkLog DEBUG "GET %s" [urljoin T u1 endpoint_uri]);
                Issued (get_request T self endpoint_uri u1)])).
  { rewrite Hreq in Hp |- *.
    unfold get_attempt, _make_session_get_request, send,
      do_raise_for_status, bind, emit, call, logger_debug.
    rewrite Hsess. simpl. rewrite Hp. simpl. rewrite Hs. simpl.
    rewrite Hj. reflexivity. }
  rewrite (sweep_fail_step T _ (get_attempt T self endpoint_uri)
             (ret T (JObj [])) 0 u1 (u2 :: rest) w e w2 _ E R).
  replace (Z.of_nat 0 =? Z.of_nat (List.length (u1 :: u2 :: rest)) - 1)%Z
    with false by (symmetry; apply Z.eqb_neq; simpl List.length; lia).
  destruct (sweep_trace_head T (List.length (u1 :: u2 :: rest))
              (get_attempt T self endpoint_uri) (ret T (JObj [])) 1 u2 rest w2)
    as [t2 Ht].
  destruct (Hhead u2 w2) as [t3 Ht3]. rewrite Ht3 in Ht.
  destruct (sweep T (List.length (u1 :: u2 :: rest))
              (get_attempt T self endpoint_uri) (ret T (JObj [])) 1
              (u2 :: rest) w2) as [[r w3] t] eqn:Es.
  unfold outcome, final_world, trace in *. simpl in Ht. simpl.
  repeat split. exists (t3 ++ t2). now rewrite Ht.
Qed.

Lemma read_bad_body_fails_over_witness :
  outcome (get_validators_by_ids (garbled ["http://a"])
             (get_consensus_client (garbled ["http://a"])
                ["http://a"; "http://b"] 60 (Some tt))
             ["100"; "200"] "head" 0) = inr (JObj [("data", JArr [])]) /\
  final_world (get_validators_by_ids (garbled ["http://a"])
                 (get_consensus_client (garbled ["http://a"])
                    ["http://a"; "http://b"] 60 (Some tt))
                 ["100"; "200"] "head" 0) = 2.
Proof.
  pose proof (read_bad_body_fails_over (garbled ["http://a"])
                (get_consensus_client (garbled ["http://a"])
                   ["http://a"; "http://b"] 60 (Some tt))
                tt "/eth/v1/beacon/states/head/validators?id=100&id=200"
                "http://a" "http://b" [] 0 1 1 (200%Z, None) "ContentTypeError"
                eq_refl eq_refl eq_refl eq_refl eq_refl eq_refl) as H.
  exact (conj (proj1 H) (proj1 (proj2 H))).
Defined.
